(** * RGWRemoteCtl: the remote zone connection directory

    A shallow embedding of [src/rgw/driver/rados/rgw_remote.cc].

    - C++ objects allocated with [new] live in an explicit heap; a
      [RGWRESTConn *] is an address into it (or [nullptr]), so that handle
      identity and release are visible.
    - The credential store ([RGWUserCtl]) and the topology service
      ([RGWSI_Zone]) are opaque collaborators: records of the answers they
      give.  Every call made to the credential store is appended to a log.
    - Logging ([ldout], [ldpp_dout]), the [DoutPrefixProvider], the
      [CephContext] and the [optional_yield] have no effect on the values
      computed here and are left out. *)

From stdpp Require Import gmap strings list fin_maps.
From Stdlib Require Import ZArith.

(** ** Data model *)

(** [struct rgw_zone_id { std::string id; }]: compared and ordered by [id]. *)
Abbreviation rgw_zone_id := string (only parsing).

(** [struct rgw_user]: tenant, namespace and id. *)
Record rgw_user := {
  u_tenant : string;
  u_ns : string;
  u_id : string
}.

(** [struct RGWAccessKey { string id; string key; ... }]. *)
Record RGWAccessKey := {
  ak_id : string;
  ak_key : string
}.

(** A default-constructed [RGWAccessKey]. *)
Definition RGWAccessKey_default : RGWAccessKey :=
  {| ak_id := ""; ak_key := "" |}.

(** [struct RGWUserInfo]: [access_keys] is a [std::map<string, RGWAccessKey>];
    it is kept as the list of its entries in iteration order, so that
    [begin()] is the head of the list. *)
Record RGWUserInfo := {
  user_id : rgw_user;
  access_keys : list (string * RGWAccessKey)
}.

(** [RGWDataProvider::RESTConfig]: a per-channel override. *)
Record RESTConfig := {
  rc_endpoints : option (list string);
  rc_uid : option rgw_user;
  rc_access_key : option string;
  rc_secret : option string
}.

(** The sync-index configuration of a zone; only [rest_conf] is read here. *)
Record SIPConfig := {
  rest_conf : RESTConfig
}.

(** [struct RGWDataProvider]: what the topology service says about a zone. *)
Record RGWDataProvider := {
  dp_id : rgw_zone_id;
  dp_name : string;
  dp_endpoints : list string;
  data_access_conf : option RESTConfig;
  sip_conf : option SIPConfig
}.

(** [RGWZoneGroup]: [zones] and [foreign_zones] are [std::map]s keyed by zone
    id, kept as the list of their entries in iteration order. *)
Record RGWZoneGroup := {
  zg_id : string;
  zg_api_name : string;
  zones : list (rgw_zone_id * RGWDataProvider);
  foreign_zones : list (rgw_zone_id * RGWDataProvider)
}.

(** The answers of the topology service [RGWSI_Zone]. *)
Record RGWSI_Zone := {
  zone_id : rgw_zone_id;                       (* zone_id() *)
  system_key : RGWAccessKey;                   (* get_zone_params().system_key *)
  redirect_zone : rgw_zone_id;                 (* get_zone().redirect_zone *)
  get_zonegroup : RGWZoneGroup;
  find_zonegroup_by_zone : rgw_zone_id → option RGWZoneGroup;
  get_zone_data_notify_set : gset string;
  find_zone_id_by_name : string → option rgw_zone_id
}.

(** The answers of the credential store [RGWUserCtl]: the return code and the
    [RGWUserInfo] written through the out-parameter. *)
Record RGWUserCtl := {
  info_by_access_key : string → Z * RGWUserInfo;
  info_by_uid : rgw_user → Z * RGWUserInfo
}.

(** One call made to the credential store. *)
Inductive StoreCall :=
  | ByAccessKey (access_key : string)
  | ByUid (uid : rgw_user).

(** What a [RGWRESTConn] is constructed from. *)
Record RGWRESTConn := {
  remote_id : string;
  conn_endpoints : list string;
  conn_key : RGWAccessKey;
  self_zone_group : string;
  conn_api_name : option string
}.

(** A [RGWRESTConn *]: [None] is [nullptr]. *)
Abbreviation ptr := (option nat) (only parsing).

(** [RGWRemoteCtl::Conns], both pointers initialised to [nullptr]. *)
Record Conns := {
  data : ptr;
  sip : ptr
}.

Definition Conns_default : Conns := {| data := None; sip := None |}.

(** The members of [RGWRemoteCtl]. *)
Record RGWRemoteCtl := {
  alloc_conns : list ptr;
  conns_map : gmap string Conns;
  zone_meta_notify_to_map : gmap string ptr;
  zone_data_notify_to_map : gmap string ptr
}.

(** The state a member function runs in: the heap of connection objects (a
    freed cell is [None]), the log of credential-store calls, and the
    object itself. *)
Record World := {
  heap : list (option RGWRESTConn);
  lookups : list StoreCall;
  this : RGWRemoteCtl
}.

(** ** A state monad over [World] *)

Definition M (A : Type) : Type := World → A * World.

#[global] Instance M_ret : MRet M := λ A x w, (x, w).
#[global] Instance M_bind : MBind M := λ A B f m w, let '(x, w') := m w in f x w'.

Definition modify_this (f : RGWRemoteCtl → RGWRemoteCtl) : M unit :=
  λ w, (tt, {| heap := heap w; lookups := lookups w; this := f (this w) |}).

(** Appending calls to the credential-store log. *)
Definition log_calls (calls : list StoreCall) (w : World) : World :=
  {| heap := heap w; lookups := lookups w ++ calls; this := this w |}.

(** [new RGWRESTConn(...)]: a fresh cell at the end of the heap. *)
Definition new_RGWRESTConn (c : RGWRESTConn) : M ptr :=
  λ w, (Some (length (heap w)),
        {| heap := heap w ++ [Some c]; lookups := lookups w; this := this w |}).

(** [*p]: [None] when [p] is null or dangling. *)
Definition deref (h : list (option RGWRESTConn)) (p : ptr) : option RGWRESTConn :=
  a ← p; mjoin (h !! a).

(** [delete p]: a no-op on [nullptr], undefined ([None]) on an address that is
    not live. *)
Definition delete_conn (p : ptr) (h : list (option RGWRESTConn))
  : option (list (option RGWRESTConn)) :=
  match p with
  | None => Some h
  | Some a =>
      match h !! a with
      | Some (Some _) => Some (<[a := None]> h)
      | _ => None
      end
  end.

(** The constructor leaves the four containers empty. *)
Definition RGWRemoteCtl_new : RGWRemoteCtl :=
  {| alloc_conns := []; conns_map := ∅;
     zone_meta_notify_to_map := ∅; zone_data_notify_to_map := ∅ |}.

(** [~RGWRemoteCtl]: [delete] every entry of [alloc_conns], in order.  The
    result is the heap left behind, [None] if a [delete] was undefined. *)
Fixpoint delete_conns (ps : list ptr) (h : list (option RGWRESTConn))
  : option (list (option RGWRESTConn)) :=
  match ps with
  | [] => Some h
  | p :: ps' => h' ← delete_conn p h; delete_conns ps' h'
  end.

Definition destructor (w : World) : option (list (option RGWRESTConn)) :=
  delete_conns (alloc_conns (this w)) (heap w).

(** Setters for the members written by [init_conn]. *)
Definition set_alloc_conns (l : list ptr) (t : RGWRemoteCtl) : RGWRemoteCtl :=
  {| alloc_conns := l; conns_map := conns_map t;
     zone_meta_notify_to_map := zone_meta_notify_to_map t;
     zone_data_notify_to_map := zone_data_notify_to_map t |}.

Definition set_conns_map (m : gmap string Conns) (t : RGWRemoteCtl) : RGWRemoteCtl :=
  {| alloc_conns := alloc_conns t; conns_map := m;
     zone_meta_notify_to_map := zone_meta_notify_to_map t;
     zone_data_notify_to_map := zone_data_notify_to_map t |}.

Definition set_meta_notify (m : gmap string ptr) (t : RGWRemoteCtl) : RGWRemoteCtl :=
  {| alloc_conns := alloc_conns t; conns_map := conns_map t;
     zone_meta_notify_to_map := m;
     zone_data_notify_to_map := zone_data_notify_to_map t |}.

Definition set_data_notify (m : gmap string ptr) (t : RGWRemoteCtl) : RGWRemoteCtl :=
  {| alloc_conns := alloc_conns t; conns_map := conns_map t;
     zone_meta_notify_to_map := zone_meta_notify_to_map t;
     zone_data_notify_to_map := m |}.

(** Modelled from the spec: [add_conn] is defined in [rgw_remote.h], which is
    not part of the sources at hand.  The directory owns every handle it
    creates and releases all of them at teardown, so [add_conn] records the
    handle in [alloc_conns] and hands it back. *)
Definition add_conn (conn : ptr) : M ptr :=
  _ ← modify_this (λ t, set_alloc_conns (alloc_conns t ++ [conn]) t);
  mret conn.

(** [auto& conns = conns_map[id]]: [operator[]] inserts a default [Conns]
    when the key is new. *)
Definition conns_map_index (id : rgw_zone_id) : M unit :=
  modify_this (λ t,
    match conns_map t !! id with
    | Some _ => t
    | None => set_conns_map (<[id := Conns_default]> (conns_map t)) t
    end).

(** [conns.data = p] and [conns.sip = p] through the reference. *)
Definition set_conns_data (id : rgw_zone_id) (p : ptr) : M unit :=
  modify_this (λ t,
    set_conns_map (alter (λ c, {| data := p; sip := sip c |}) id (conns_map t)) t).

Definition set_conns_sip (id : rgw_zone_id) (p : ptr) : M unit :=
  modify_this (λ t,
    set_conns_map (alter (λ c, {| data := data c; sip := p |}) id (conns_map t)) t).

(** Reading [conns.data] through the reference. *)
Definition get_conns_data (id : rgw_zone_id) : M ptr :=
  λ w, (c ← conns_map (this w) !! id; data c, w).

(** [std::list::empty()]. *)
Definition is_empty {A} (l : list A) : bool :=
  match l with [] => true | _ :: _ => false end.

(** A freshly constructed directory, in a heap [h] and after the store calls
    [l]. *)
Definition World_new (h : list (option RGWRESTConn)) (l : list StoreCall) : World :=
  {| heap := h; lookups := l; this := RGWRemoteCtl_new |}.

Section RemoteCtl.

Variable svc : RGWSI_Zone.
Variable user : RGWUserCtl.

(** [RGWRESTConn::get_url(string&)], of the connection implementation: the
    return code and the content of the out-parameter afterwards. *)
Variable get_url : RGWRESTConn → string → Z * string.

(** ** Credential resolver *)

Definition get_info_by_access_key (access_key : string) : M (Z * RGWUserInfo) :=
  λ w, (info_by_access_key user access_key, log_calls [ByAccessKey access_key] w).

Definition get_info_by_uid (uid : rgw_user) : M (Z * RGWUserInfo) :=
  λ w, (info_by_uid user uid, log_calls [ByUid uid] w).

(** Lines 59-72 of [get_access_key]: what follows either store lookup. *)
Definition first_access_key (r : Z) (info : RGWUserInfo) (result : RGWAccessKey)
  : bool * RGWAccessKey :=
  if (r <? 0)%Z then (false, result)
  else
    match access_keys info with
    | [] => (false, result)
    | akiter :: _ => (true, akiter.2)
    end.

(** [RGWRemoteCtl::get_access_key]: the returned pair is the [bool] result and
    the content of [*result] on return. *)
Definition get_access_key (dest_id : string) (uid : option rgw_user)
    (access_key secret : option string) (result : RGWAccessKey)
  : M (bool * RGWAccessKey) :=
  match access_key with
  | Some ak =>
      let result := {| ak_id := ak; ak_key := ak_key result |} in
      match secret with
      | Some s => mret (true, {| ak_id := ak_id result; ak_key := s |})
      | None =>
          '(r, info) ← get_info_by_access_key ak;
          mret (first_access_key r info result)
      end
  | None =>
      match uid with
      | Some u =>
          '(r, info) ← get_info_by_uid u;
          mret (first_access_key r info result)
      | None => mret (false, result)
      end
  end.

(** ** Connection factory *)

(** [RGWRemoteCtl::create_conn] from a zone and a channel override. *)
Definition create_conn (zone_name : string) (zone_id : rgw_zone_id)
    (def_endpoints : list string) (conf : RESTConfig) (api_name : option string)
  : M ptr :=
  let endpoints := default def_endpoints (rc_endpoints conf) in
  '(found, access_key) ← get_access_key zone_name (rc_uid conf)
                            (rc_access_key conf) (rc_secret conf)
                            RGWAccessKey_default;
  let access_key := if found : bool then access_key else system_key svc in
  new_RGWRESTConn {| remote_id := zone_id; conn_endpoints := endpoints;
                     conn_key := access_key;
                     self_zone_group := zg_id (get_zonegroup svc);
                     conn_api_name := api_name |}.

(** [RGWRemoteCtl::create_conn] from explicit parameters. *)
Definition create_conn_explicit (remote_id : string) (endpoints : list string)
    (key : RGWAccessKey) (api_name : option string) : M ptr :=
  new_RGWRESTConn {| remote_id := remote_id; conn_endpoints := endpoints;
                     conn_key := key;
                     self_zone_group := zg_id (get_zonegroup svc);
                     conn_api_name := api_name |}.

(** ** Connection directory *)

(** Lines 85-91 of [init_conn]: the zone's own endpoints, replaced by those of
    the data-access override when the zone has none and the override has
    some. *)
Definition def_endpoints_of (z : RGWDataProvider) : list string :=
  match data_access_conf z with
  | Some conf =>
      match rc_endpoints conf with
      | Some endpoints =>
          if is_empty (dp_endpoints z) && negb (is_empty endpoints)
          then endpoints else dp_endpoints z
      | None => dp_endpoints z
      end
  | None => dp_endpoints z
  end.

(** [RGWRemoteCtl::init_conn]. *)
Definition init_conn (z : RGWDataProvider) (need_notify : bool) : M unit :=
  let id := dp_id z in
  if decide (id = zone_id svc) then mret tt
  else
    let def_endpoints := def_endpoints_of z in
    if is_empty def_endpoints then mret tt
    else
        let api_name := zg_api_name <$> find_zonegroup_by_zone svc (dp_id z) in
        _ ← conns_map_index id;
        p ← match data_access_conf z with
            | Some conf =>
                create_conn (dp_name z) (dp_id z) def_endpoints conf api_name
            | None =>
                new_RGWRESTConn
                  {| remote_id := dp_id z; conn_endpoints := dp_endpoints z;
                     conn_key := system_key svc;
                     self_zone_group := zg_id (get_zonegroup svc);
                     conn_api_name := api_name |}
            end;
        p ← add_conn p;
        _ ← set_conns_data id p;
        _ ← match sip_conf z with
            | Some sc =>
                q ← create_conn (dp_name z) (dp_id z) def_endpoints
                      (rest_conf sc) api_name;
                q ← add_conn q;
                set_conns_sip id q
            | None =>
                q ← get_conns_data id;
                set_conns_sip id q
            end;
        if need_notify then
          d ← get_conns_data id;
          _ ← modify_this (λ t,
                set_meta_notify (<[dp_id z := d]> (zone_meta_notify_to_map t)) t);
          if decide (dp_id z ∈ get_zone_data_notify_set svc) then
            d ← get_conns_data id;
            modify_this (λ t,
              set_data_notify (<[dp_id z := d]> (zone_data_notify_to_map t)) t)
          else mret tt
        else mret tt.

(** A range-[for] over the entries of a [std::map] of zones. *)
Fixpoint init_conns (zs : list (rgw_zone_id * RGWDataProvider)) (need_notify : bool)
  : M unit :=
  match zs with
  | [] => mret tt
  | ziter :: zs' => _ ← init_conn ziter.2 need_notify; init_conns zs' need_notify
  end.

(** [RGWRemoteCtl::init]. *)
Definition init : M unit :=
  let zonegroup := get_zonegroup svc in
  _ ← init_conns (zones zonegroup) true;
  init_conns (foreign_zones zonegroup) false.

(** [RGWRemoteCtl::zone_conns(const rgw_zone_id&)]. *)
Definition zone_conns (zone_id : rgw_zone_id) (w : World) : option Conns :=
  conns_map (this w) !! zone_id.

(** [RGWRemoteCtl::zone_conns(const string& name)]. *)
Definition zone_conns_by_name (name : string) (w : World) : option Conns :=
  match find_zone_id_by_name svc name with
  | None => None
  | Some id => zone_conns id w
  end.

(** ** Redirect resolver *)

(** [RGWRemoteCtl::get_redirect_zone_endpoint]: the [bool] result and the
    content of [*endpoint] on return; [None] when the function dereferences
    a pointer that is null or dangling. *)
Definition get_redirect_zone_endpoint (endpoint : string) (w : World)
  : option (bool * string) :=
  if decide (redirect_zone svc = "") then Some (false, endpoint)
  else
    match conns_map (this w) !! redirect_zone svc with
    | None => Some (false, endpoint)
    | Some conns =>
        conn ← deref (heap w) (data conns);
        let '(ret, endpoint') := get_url conn endpoint in
        if (ret <? 0)%Z then Some (false, endpoint') else Some (true, endpoint')
    end.

End RemoteCtl.

(** ** The resolution order of the specification *)

Section ResolutionOrder.

Variable user : RGWUserCtl.

(** The first access key of a looked-up user, when the lookup succeeded and
    the user has one. *)
Definition first_key_found (found : Z * RGWUserInfo) : option RGWAccessKey :=
  if (found.1 <? 0)%Z then None else snd <$> head (access_keys found.2).

(** The four rules of the credential resolver, first match wins, written from
    the specification: the store calls a resolution makes, and the access key
    it returns ([None] is not-found). *)
Definition resolve_spec (uid : option rgw_user) (access_key secret : option string)
  : list StoreCall * option RGWAccessKey :=
  match access_key, secret, uid with
  | Some id, Some s, _ => ([], Some {| ak_id := id; ak_key := s |})
  | Some id, None, _ => ([ByAccessKey id], first_key_found (info_by_access_key user id))
  | None, _, Some u => ([ByUid u], first_key_found (info_by_uid user u))
  | None, _, None => ([], None)
  end.

(** The ways a credential resolution fails. *)
Inductive resolution_fails (conf : RESTConfig) : Prop :=
  | lookup_by_access_key_error ak :
      rc_access_key conf = Some ak → rc_secret conf = None →
      ((info_by_access_key user ak).1 < 0)%Z → resolution_fails conf
  | lookup_by_uid_error u :
      rc_access_key conf = None → rc_uid conf = Some u →
      ((info_by_uid user u).1 < 0)%Z → resolution_fails conf
  | no_access_keys_by_access_key ak :
      rc_access_key conf = Some ak → rc_secret conf = None →
      access_keys (info_by_access_key user ak).2 = [] → resolution_fails conf
  | no_access_keys_by_uid u :
      rc_access_key conf = None → rc_uid conf = Some u →
      access_keys (info_by_uid user u).2 = [] → resolution_fails conf
  | no_credential_reference :
      rc_access_key conf = None → rc_uid conf = None → resolution_fails conf.

End ResolutionOrder.

(** ** The run of [init] as a sequence of [init_conn] calls *)

Section InitSteps.

Variable svc : RGWSI_Zone.
Variable user : RGWUserCtl.

(** The two early returns of [init_conn]: the zone is the local zone, or it
    has no endpoint even after the fallback to its data-access override. *)
Definition skipped (z : RGWDataProvider) : bool :=
  bool_decide (dp_id z = zone_id svc) || is_empty (def_endpoints_of z).

(** The pair [init_conn] leaves in [conns_map] for a zone whose data
    connection was allocated at address [n]. *)
Definition entry_of (z : RGWDataProvider) (n : nat) : Conns :=
  {| data := Some n;
     sip := match sip_conf z with Some _ => Some (S n) | None => Some n end |}.

(** The calls of [init_conn] made by [init], in order. *)
Definition init_steps : list (RGWDataProvider * bool) :=
  ((λ ziter : rgw_zone_id * RGWDataProvider, (ziter.2, true))
     <$> zones (get_zonegroup svc))
  ++ ((λ ziter : rgw_zone_id * RGWDataProvider, (ziter.2, false))
        <$> foreign_zones (get_zonegroup svc)).

Fixpoint run_steps (steps : list (RGWDataProvider * bool)) : M unit :=
  match steps with
  | [] => mret tt
  | step :: steps' => _ ← init_conn svc user step.1 step.2; run_steps steps'
  end.

(** The member zones and the foreign zones of the local zone group. *)
Definition member_zones : list RGWDataProvider := snd <$> zones (get_zonegroup svc).

Definition foreign_zone_list : list RGWDataProvider :=
  snd <$> foreign_zones (get_zonegroup svc).

(** No two zones known to the zone group share an id. *)
Definition distinct_zone_ids : Prop :=
  NoDup (dp_id <$> (member_zones ++ foreign_zone_list)).

(** No foreign zone carries the id of a member zone. *)
Definition foreign_ids_apart : Prop :=
  ∀ z f, z ∈ member_zones → f ∈ foreign_zone_list → dp_id z ≠ dp_id f.

(** Every handle held in [conns_map] is one of the owned handles. *)
Definition handles_registered (w : World) : Prop :=
  ∀ i c, conns_map (this w) !! i = Some c →
    data c ∈ alloc_conns (this w) ∧ sip c ∈ alloc_conns (this w).

End InitSteps.

(** ** A small zone group to run the code on

    The local zone is [A].  [B] has no override and is a data-notify
    recipient; [C] has a sync-index override with its own endpoint and a user
    identity; [D] has no endpoint at all; [E] has a data-access override with
    an endpoint list that is present but empty and an access-key id unknown to
    the store; [F] is a foreign zone. *)

Module Demo.

Definition sync_user : rgw_user := {| u_tenant := ""; u_ns := ""; u_id := "sync" |}.

Definition sync_key : RGWAccessKey := {| ak_id := "K1"; ak_key := "S1" |}.

Definition local_key : RGWAccessKey := {| ak_id := "SYS"; ak_key := "SYSSECRET" |}.

Definition no_conf : RESTConfig :=
  {| rc_endpoints := None; rc_uid := None; rc_access_key := None; rc_secret := None |}.

Definition zone_A : RGWDataProvider :=
  {| dp_id := "A"; dp_name := "a"; dp_endpoints := ["e0"];
     data_access_conf := None; sip_conf := None |}.

Definition zone_B : RGWDataProvider :=
  {| dp_id := "B"; dp_name := "b"; dp_endpoints := ["e1"];
     data_access_conf := None; sip_conf := None |}.

Definition zone_C : RGWDataProvider :=
  {| dp_id := "C"; dp_name := "c"; dp_endpoints := ["e2"];
     data_access_conf := None;
     sip_conf := Some {| rest_conf :=
       {| rc_endpoints := Some ["e3"]; rc_uid := Some sync_user;
          rc_access_key := None; rc_secret := None |} |} |}.

Definition zone_D : RGWDataProvider :=
  {| dp_id := "D"; dp_name := "d"; dp_endpoints := [];
     data_access_conf := None; sip_conf := None |}.

Definition conf_E : RESTConfig :=
  {| rc_endpoints := Some []; rc_uid := None;
     rc_access_key := Some "AK"; rc_secret := None |}.

Definition zone_E : RGWDataProvider :=
  {| dp_id := "E"; dp_name := "e"; dp_endpoints := ["e5"];
     data_access_conf := Some conf_E; sip_conf := None |}.

Definition zone_F : RGWDataProvider :=
  {| dp_id := "F"; dp_name := "f"; dp_endpoints := ["e6"];
     data_access_conf := None; sip_conf := None |}.

Definition zonegroup : RGWZoneGroup :=
  {| zg_id := "zg"; zg_api_name := "default";
     zones := [("A", zone_A); ("B", zone_B); ("C", zone_C); ("D", zone_D);
               ("E", zone_E)];
     foreign_zones := [("F", zone_F)] |}.

Definition svc : RGWSI_Zone :=
  {| zone_id := "A"; system_key := local_key; redirect_zone := "B";
     get_zonegroup := zonegroup;
     find_zonegroup_by_zone := λ id,
       if bool_decide (id ∈ ["A"; "B"; "C"; "D"; "E"]) then Some zonegroup else None;
     get_zone_data_notify_set := {["B"]};
     find_zone_id_by_name := λ name,
       dp_id <$> head (filter (λ z, dp_name z = name)
                         [zone_A; zone_B; zone_C; zone_D; zone_E; zone_F]) |}.

Definition no_user : RGWUserInfo := {| user_id := sync_user; access_keys := [] |}.

Definition user : RGWUserCtl :=
  {| info_by_access_key := λ _, ((-2)%Z, no_user);
     info_by_uid := λ u,
       if bool_decide (u_id u = "sync")
       then (0%Z, {| user_id := u; access_keys := [("K1", sync_key)] |})
       else ((-2)%Z, no_user) |}.

Definition get_url (c : RGWRESTConn) (endpoint : string) : Z * string :=
  match conn_endpoints c with
  | [] => ((-5)%Z, endpoint)
  | e :: _ => (0%Z, e)
  end.

Definition world0 : World := World_new [] [].

End Demo.

(** ** What a call of [init_conn] allocates and asks *)

Section Allocations.

Variable svc : RGWSI_Zone.
Variable user : RGWUserCtl.

(** The store calls on the paths of [get_access_key]: line 46 is reached with
    an access-key id and no secret, line 51 with a user and no access-key
    id. *)
Definition store_calls_of (uid : option rgw_user) (access_key secret : option string)
  : list StoreCall :=
  match access_key with
  | Some ak => match secret with Some _ => [] | None => [ByAccessKey ak] end
  | None => match uid with Some u => [ByUid u] | None => [] end
  end.

(** [get_access_key] on the credential reference of an override, run where
    nothing has happened yet. *)
Definition resolve (conf : RESTConfig) : bool * RGWAccessKey :=
  (get_access_key user "" (rc_uid conf) (rc_access_key conf) (rc_secret conf)
     RGWAccessKey_default (World_new [] [])).1.

(** Lines 179-188 of [create_conn]: the key found, or the system key. *)
Definition conn_key_for (conf : RESTConfig) : RGWAccessKey :=
  if (resolve conf).1 then (resolve conf).2 else system_key svc.

(** How many connections a call of [init_conn] allocates for a zone: none
    when the zone is skipped, one for the data channel, and one more when the
    zone has a sync-index override. *)
Definition connections_built (z : RGWDataProvider) : nat :=
  if skipped svc z then 0
  else match sip_conf z with Some _ => 2 | None => 1 end.

(** The store calls of a call of [init_conn]: those of the data-access
    override, then those of the sync-index override. *)
Definition zone_store_calls (z : RGWDataProvider) : list StoreCall :=
  if skipped svc z then []
  else
    match data_access_conf z with
    | Some conf => store_calls_of (rc_uid conf) (rc_access_key conf) (rc_secret conf)
    | None => []
    end
    ++ match sip_conf z with
       | Some sc =>
           store_calls_of (rc_uid (rest_conf sc)) (rc_access_key (rest_conf sc))
             (rc_secret (rest_conf sc))
       | None => []
       end.

(** Every handle held in a notify table is one of the owned handles. *)
Definition notify_registered (w : World) : Prop :=
  ∀ i p,
    zone_meta_notify_to_map (this w) !! i = Some p
    ∨ zone_data_notify_to_map (this w) !! i = Some p →
    p ∈ alloc_conns (this w).

End Allocations.

(** The small zone group again, with the local zone [A] as its own redirect
    zone. *)
Module DemoSelf.

Definition svc : RGWSI_Zone :=
  {| zone_id := "A"; system_key := Demo.local_key; redirect_zone := "A";
     get_zonegroup := Demo.zonegroup;
     find_zonegroup_by_zone := find_zonegroup_by_zone Demo.svc;
     get_zone_data_notify_set := {["B"]};
     find_zone_id_by_name := find_zone_id_by_name Demo.svc |}.

End DemoSelf.

(** * Properties *)

Section Properties.

Variable svc : RGWSI_Zone.
Variable user : RGWUserCtl.
Variable get_url : RGWRESTConn → string → Z * string.

Implicit Types (w : World) (z : RGWDataProvider) (conf : RESTConfig).
Implicit Types (h : list (option RGWRESTConn)) (result : RGWAccessKey).
Implicit Types (nn need_notify : bool) (steps : list (RGWDataProvider * bool)).

(** ** Credential resolver *)

Lemma first_access_key_found r info result :
  first_key_found (r, info) =
    if (first_access_key r info result).1
    then Some (first_access_key r info result).2 else None.
Proof.
  unfold first_key_found, first_access_key; simpl.
  destruct (r <? 0)%Z; [done|].
  by destruct (access_keys info).
Qed.

(** C1.  The resolver follows the four rules in order: with an access-key id
    and a secret it returns that pair and calls the store not at all; with an
    access-key id alone it calls the store once, by access-key id; failing
    that, with a user identity it calls the store once, by identity; in both
    cases a successful lookup yields the first access key of the user found;
    with neither it returns not-found.  The calls are what the run appends to
    the store log, and nothing else of the state changes. *)
Theorem get_access_key_resolution_order dest_id uid access_key secret result w :
  let '((found, key), w') :=
    get_access_key user dest_id uid access_key secret result w in
  w' = log_calls (resolve_spec user uid access_key secret).1 w
  ∧ (resolve_spec user uid access_key secret).2 = if found then Some key else None.
Proof.
  assert (Hw : log_calls [] w = w).
  { destruct w; unfold log_calls; simpl. by rewrite app_nil_r. }
  unfold get_access_key, resolve_spec.
  destruct access_key as [ak|], secret as [s|], uid as [u|]; simpl;
    rewrite ?Hw; try done; unfold mbind, M_bind, mret, M_ret.
  - unfold get_info_by_access_key.
    destruct (info_by_access_key user ak) as [r info] eqn:E.
    rewrite (first_access_key_found r info {| ak_id := ak; ak_key := ak_key result |}).
    by destruct (first_access_key r info _) as [[] k].
  - unfold get_info_by_access_key.
    destruct (info_by_access_key user ak) as [r info] eqn:E.
    rewrite (first_access_key_found r info {| ak_id := ak; ak_key := ak_key result |}).
    by destruct (first_access_key r info _) as [[] k].
  - unfold get_info_by_uid.
    destruct (info_by_uid user u) as [r info] eqn:E.
    rewrite (first_access_key_found r info result).
    by destruct (first_access_key r info _) as [[] k].
  - unfold get_info_by_uid.
    destruct (info_by_uid user u) as [r info] eqn:E.
    rewrite (first_access_key_found r info result).
    by destruct (first_access_key r info _) as [[] k].
Qed.

(** The store log is the only part of the state a resolution touches. *)
Lemma get_access_key_frame dest_id uid access_key secret result w :
  heap (get_access_key user dest_id uid access_key secret result w).2 = heap w
  ∧ this (get_access_key user dest_id uid access_key secret result w).2 = this w.
Proof.
  unfold get_access_key.
  destruct access_key as [ak|], secret as [s|], uid as [u|]; simpl; try done;
    unfold mbind, M_bind, get_info_by_access_key, get_info_by_uid;
    by repeat case_match.
Qed.

(** A resolution fails in the listed ways and in no other. *)
Lemma get_access_key_fails_iff dest_id conf result w :
  (get_access_key user dest_id (rc_uid conf) (rc_access_key conf) (rc_secret conf)
     result w).1.1 = false
  ↔ resolution_fails user conf.
Proof.
  unfold get_access_key, mbind, M_bind, mret, M_ret,
    get_info_by_access_key, get_info_by_uid, first_access_key.
  split.
  - destruct (rc_access_key conf) as [ak|] eqn:Ha, (rc_secret conf) as [s|] eqn:Hs;
      simpl; try done.
    + destruct (info_by_access_key user ak) as [r info] eqn:E; simpl.
      destruct (r <? 0)%Z eqn:Hr.
      * intros _. eapply lookup_by_access_key_error; eauto.
        rewrite E. simpl. lia.
      * destruct (access_keys info) eqn:Hk; [|done].
        intros _. eapply no_access_keys_by_access_key; eauto. by rewrite E.
    + destruct (rc_uid conf) as [u|] eqn:Hu; simpl.
      * destruct (info_by_uid user u) as [r info] eqn:E; simpl.
        destruct (r <? 0)%Z eqn:Hr.
        -- intros _. eapply lookup_by_uid_error; eauto. rewrite E. simpl. lia.
        -- destruct (access_keys info) eqn:Hk; [|done].
           intros _. eapply no_access_keys_by_uid; eauto. by rewrite E.
      * intros _. by apply no_credential_reference.
    + destruct (rc_uid conf) as [u|] eqn:Hu; simpl.
      * destruct (info_by_uid user u) as [r info] eqn:E; simpl.
        destruct (r <? 0)%Z eqn:Hr.
        -- intros _. eapply lookup_by_uid_error; eauto. rewrite E. simpl. lia.
        -- destruct (access_keys info) eqn:Hk; [|done].
           intros _. eapply no_access_keys_by_uid; eauto. by rewrite E.
      * intros _. by apply no_credential_reference.
  - intros [ak Ha Hs Hr|u Ha Hu Hr|ak Ha Hs Hk|u Ha Hu Hk|Ha Hu];
      rewrite ?Ha, ?Hs, ?Hu; simpl.
    + destruct (info_by_access_key user ak) as [r info]; simpl in *.
      by replace (r <? 0)%Z with true by lia.
    + destruct (info_by_uid user u) as [r info]; simpl in *.
      by replace (r <? 0)%Z with true by lia.
    + destruct (info_by_access_key user ak) as [r info]; simpl in *.
      rewrite Hk. by destruct (r <? 0)%Z.
    + destruct (info_by_uid user u) as [r info]; simpl in *.
      rewrite Hk. by destruct (r <? 0)%Z.
    + done.
Qed.

(** ** Connection factory *)

(** What [create_conn] does, in one equation. *)
Lemma create_conn_unfold zone_name id def_endpoints conf api_name w :
  let res := get_access_key user zone_name (rc_uid conf) (rc_access_key conf)
               (rc_secret conf) RGWAccessKey_default w in
  create_conn svc user zone_name id def_endpoints conf api_name w =
    (Some (length (heap w)),
     {| heap := heap w ++
          [Some {| remote_id := id;
                   conn_endpoints := default def_endpoints (rc_endpoints conf);
                   conn_key := if res.1.1 then res.1.2 else system_key svc;
                   self_zone_group := zg_id (get_zonegroup svc);
                   conn_api_name := api_name |}];
        lookups := lookups res.2;
        this := this w |}).
Proof.
  intros res. subst res. unfold create_conn, mbind, M_bind.
  pose proof (get_access_key_frame zone_name (rc_uid conf) (rc_access_key conf)
                (rc_secret conf) RGWAccessKey_default w) as [Hh Ht].
  destruct (get_access_key _ _ _ _ _ _ _) as [[found key] w'] eqn:E. simpl in *.
  unfold new_RGWRESTConn. by rewrite Hh, Ht.
Qed.

(** C2.  When the credential resolution of a channel override fails -- the
    store lookup reports an error, the user found has no access key, or the
    override names neither an access-key id nor a user -- [get_access_key]
    returns [false], and [create_conn] still allocates a connection and
    returns its handle: the connection carries the system key of the local
    zone, and the directory itself is untouched. *)
Theorem create_conn_falls_back_to_system_key
    zone_name id def_endpoints conf api_name w :
  resolution_fails user conf →
  (get_access_key user zone_name (rc_uid conf) (rc_access_key conf)
     (rc_secret conf) RGWAccessKey_default w).1.1 = false
  ∧ ∃ w',
      create_conn svc user zone_name id def_endpoints conf api_name w
        = (Some (length (heap w)), w')
      ∧ heap w' = heap w ++
          [Some {| remote_id := id;
                   conn_endpoints := default def_endpoints (rc_endpoints conf);
                   conn_key := system_key svc;
                   self_zone_group := zg_id (get_zonegroup svc);
                   conn_api_name := api_name |}]
      ∧ this w' = this w.
Proof.
  intros Hfail.
  apply (get_access_key_fails_iff zone_name conf RGWAccessKey_default w) in Hfail.
  split; [done|].
  rewrite create_conn_unfold. rewrite Hfail.
  eexists; split; [reflexivity|]. done.
Qed.

(** C10.  An override that carries a secret and nothing else resolves to
    not-found without any call to the store, the secret being dropped, and
    the connection built from it carries the system key of the local zone. *)
Theorem get_access_key_secret_only
    dest_id secret result zone_name id def_endpoints endpoints api_name w :
  get_access_key user dest_id None None (Some secret) result w = ((false, result), w)
  ∧ create_conn svc user zone_name id def_endpoints
      {| rc_endpoints := endpoints; rc_uid := None; rc_access_key := None;
         rc_secret := Some secret |} api_name w
    = (Some (length (heap w)),
       {| heap := heap w ++
            [Some {| remote_id := id;
                     conn_endpoints := default def_endpoints endpoints;
                     conn_key := system_key svc;
                     self_zone_group := zg_id (get_zonegroup svc);
                     conn_api_name := api_name |}];
          lookups := lookups w;
          this := this w |}).
Proof. split; reflexivity. Qed.

(** ** Connection directory: one call of [init_conn] *)

Lemma create_conn_alloc zone_name id def_endpoints conf api_name w :
  ∃ c ls,
    create_conn svc user zone_name id def_endpoints conf api_name w =
      (Some (length (heap w)),
       {| heap := heap w ++ [Some c]; lookups := ls; this := this w |}).
Proof. rewrite create_conn_unfold. eauto. Qed.

(** The two assignments through [conns], on an entry that exists. *)
Lemma alter_data_then_sip (m : gmap string Conns) id c p q :
  m !! id = Some c →
  alter (λ c, {| data := data c; sip := q |}) id
    (alter (λ c, {| data := p; sip := sip c |}) id m)
  = <[id := {| data := p; sip := q |}]> m.
Proof.
  intros E. apply map_eq. intros j. destruct (decide (id = j)) as [<-|Hne].
  - by rewrite !lookup_alter_eq, lookup_insert_eq, E.
  - by rewrite !lookup_alter_ne, lookup_insert_ne.
Qed.

(** The list [init_conn] tests is empty exactly when the zone has no endpoint
    and its data-access override has none either (no override, no endpoint
    list in it, or an empty one). *)
Lemma def_endpoints_of_empty_iff z :
  def_endpoints_of z = []
  ↔ dp_endpoints z = []
    ∧ default [] (data_access_conf z ≫= rc_endpoints) = [].
Proof.
  unfold def_endpoints_of.
  destruct (data_access_conf z) as [conf|]; simpl; [|intuition].
  destruct (rc_endpoints conf) as [eps|]; simpl; [|intuition].
  destruct (dp_endpoints z), eps; simpl; intuition congruence.
Qed.

Lemma init_conn_skip z need_notify w :
  skipped svc z = true → init_conn svc user z need_notify w = (tt, w).
Proof.
  unfold skipped, init_conn. intros H.
  destruct (decide (dp_id z = zone_id svc)) as [|Hne]; [done|].
  rewrite bool_decide_eq_false_2 in H by done. simpl in H. by rewrite H.
Qed.

(** A call of [init_conn] that is not skipped allocates one connection, or
    two when the zone has a sync-index override, registers each of them, and
    writes the pair and the notify entries of the zone. *)
Lemma init_conn_build z need_notify w :
  skipped svc z = false →
  ∃ cs,
    length cs = match sip_conf z with Some _ => 2 | None => 1 end
    ∧ heap (init_conn svc user z need_notify w).2 = heap w ++ (Some <$> cs)
    ∧ this (init_conn svc user z need_notify w).2 =
        {| alloc_conns := alloc_conns (this w)
                            ++ (Some <$> seq (length (heap w)) (length cs));
           conns_map := <[dp_id z := entry_of z (length (heap w))]>
                          (conns_map (this w));
           zone_meta_notify_to_map :=
             if need_notify
             then <[dp_id z := Some (length (heap w))]>
                    (zone_meta_notify_to_map (this w))
             else zone_meta_notify_to_map (this w);
           zone_data_notify_to_map :=
             if need_notify && bool_decide (dp_id z ∈ get_zone_data_notify_set svc)
             then <[dp_id z := Some (length (heap w))]>
                    (zone_data_notify_to_map (this w))
             else zone_data_notify_to_map (this w) |}.
Proof.
  unfold skipped, init_conn. intros H.
  apply orb_false_iff in H as [Hid Hemp]. apply bool_decide_eq_false in Hid.
  rewrite decide_False by done. rewrite Hemp.
  destruct w as [hp lg [al cm mn dn]].
  unfold mbind, M_bind, conns_map_index, modify_this. simpl.
  assert (∃ m c0, m !! dp_id z = Some c0
                  ∧ (∀ x, <[dp_id z := x]> m = <[dp_id z := x]> cm)
                  ∧ match cm !! dp_id z with
                    | Some _ => {| alloc_conns := al; conns_map := cm;
                                   zone_meta_notify_to_map := mn;
                                   zone_data_notify_to_map := dn |}
                    | None => set_conns_map (<[dp_id z := Conns_default]> cm)
                                {| alloc_conns := al; conns_map := cm;
                                   zone_meta_notify_to_map := mn;
                                   zone_data_notify_to_map := dn |}
                    end
                    = {| alloc_conns := al; conns_map := m;
                         zone_meta_notify_to_map := mn;
                         zone_data_notify_to_map := dn |})
    as (m & c0 & Hm & Hins & ->).
  { destruct (cm !! dp_id z) as [c0|] eqn:E.
    - by exists cm, c0.
    - exists (<[dp_id z := Conns_default]> cm), Conns_default.
      split; [apply lookup_insert_eq|]. split; [|done].
      intros x. apply insert_insert_eq. }
  assert (Hlen : ∀ c : RGWRESTConn, length (hp ++ [Some c]) = S (length hp)).
  { intros c. rewrite length_app. simpl. lia. }
  unfold add_conn, set_conns_data, set_conns_sip, get_conns_data, modify_this,
    mbind, M_bind, mret, M_ret, new_RGWRESTConn.
  destruct (data_access_conf z) as [conf|] eqn:Hd;
    [ destruct (create_conn_alloc (dp_name z) (dp_id z) (def_endpoints_of z) conf
                  (zg_api_name <$> find_zonegroup_by_zone svc (dp_id z))
                  {| heap := hp; lookups := lg;
                     this := {| alloc_conns := al; conns_map := m;
                                zone_meta_notify_to_map := mn;
                                zone_data_notify_to_map := dn |} |})
        as (c1 & l1 & ->)
    | set (c1 := {| remote_id := dp_id z; conn_endpoints := dp_endpoints z;
                    conn_key := system_key svc;
                    self_zone_group := zg_id (get_zonegroup svc);
                    conn_api_name :=
                      zg_api_name <$> find_zonegroup_by_zone svc (dp_id z) |}) ];
    simpl;
    (destruct (sip_conf z) as [sc|] eqn:Hs;
     [ match goal with
       | |- context [create_conn svc user ?a ?b ?c ?d ?e ?w0] =>
           destruct (create_conn_alloc a b c d e w0) as (c2 & l2 & ->)
       end; exists [c1; c2]
     | exists [c1] ]);
    simpl;
    (destruct need_notify; simpl;
     [ destruct (decide (dp_id z ∈ get_zone_data_notify_set svc)) as [Hin|Hin];
       [ rewrite (bool_decide_eq_true_2 _ Hin)
       | rewrite (bool_decide_eq_false_2 _ Hin) ]
     | ]);
    simpl; unfold option_bind;
    rewrite ?lookup_alter_eq, ?Hm; simpl;
    rewrite ?(alter_data_then_sip m (dp_id z) c0) by done;
    rewrite ?Hlen, ?Hins, <- ?app_assoc;
    unfold entry_of; rewrite Hs; done.
Qed.

(** The three tables after one call, entry by entry. *)
Lemma init_conn_conns_map z need_notify w i :
  conns_map (this (init_conn svc user z need_notify w).2) !! i =
    if negb (skipped svc z) && bool_decide (dp_id z = i)
    then Some (entry_of z (length (heap w)))
    else conns_map (this w) !! i.
Proof.
  destruct (skipped svc z) eqn:E; simpl.
  - by rewrite init_conn_skip.
  - destruct (init_conn_build z need_notify w E) as (cs & _ & _ & ->). simpl.
    rewrite lookup_insert. by repeat case_decide; repeat case_bool_decide.
Qed.

Lemma init_conn_meta_notify z need_notify w i :
  zone_meta_notify_to_map (this (init_conn svc user z need_notify w).2) !! i =
    if negb (skipped svc z) && need_notify && bool_decide (dp_id z = i)
    then Some (Some (length (heap w)))
    else zone_meta_notify_to_map (this w) !! i.
Proof.
  destruct (skipped svc z) eqn:E; simpl.
  - by rewrite init_conn_skip.
  - destruct (init_conn_build z need_notify w E) as (cs & _ & _ & ->). simpl.
    destruct need_notify; simpl; [|done].
    rewrite lookup_insert. by repeat case_decide; repeat case_bool_decide.
Qed.

Lemma init_conn_data_notify z need_notify w i :
  zone_data_notify_to_map (this (init_conn svc user z need_notify w).2) !! i =
    if negb (skipped svc z) && need_notify
       && bool_decide (dp_id z ∈ get_zone_data_notify_set svc)
       && bool_decide (dp_id z = i)
    then Some (Some (length (heap w)))
    else zone_data_notify_to_map (this w) !! i.
Proof.
  destruct (skipped svc z) eqn:E; simpl.
  - by rewrite init_conn_skip.
  - destruct (init_conn_build z need_notify w E) as (cs & _ & _ & ->). simpl.
    destruct need_notify; simpl; [|done].
    destruct (bool_decide (dp_id z ∈ _)); simpl; [|done].
    rewrite lookup_insert. by repeat case_decide; repeat case_bool_decide.
Qed.

(** The heap and the list of owned handles after one call: every cell the
    call allocates is live, and its address is appended to [alloc_conns]. *)
Lemma init_conn_allocs z need_notify w :
  ∃ cs,
    heap (init_conn svc user z need_notify w).2 = heap w ++ (Some <$> cs)
    ∧ alloc_conns (this (init_conn svc user z need_notify w).2) =
        alloc_conns (this w) ++ (Some <$> seq (length (heap w)) (length cs))
    ∧ (skipped svc z = false →
       length cs = match sip_conf z with Some _ => 2 | None => 1 end).
Proof.
  destruct (skipped svc z) eqn:E.
  - exists []. rewrite init_conn_skip by done. simpl. by rewrite !app_nil_r.
  - destruct (init_conn_build z need_notify w E) as (cs & Hl & Hh & Ht).
    exists cs. rewrite Hh, Ht. done.
Qed.

(** ** Connection directory: runs of [init_conn] *)

Lemma run_steps_app steps1 steps2 w :
  run_steps svc user (steps1 ++ steps2) w =
    run_steps svc user steps2 (run_steps svc user steps1 w).2.
Proof.
  revert w. induction steps1 as [|[z nn] steps1 IH]; intros w; simpl; [done|].
  unfold mbind, M_bind. destruct (init_conn svc user z nn w) as [[] w1]. apply IH.
Qed.

Lemma init_conns_run_steps zs need_notify w :
  init_conns svc user zs need_notify w =
    run_steps svc user
      ((λ ziter : rgw_zone_id * RGWDataProvider, (ziter.2, need_notify)) <$> zs) w.
Proof.
  revert w. induction zs as [|ziter zs IH]; intros w; simpl; [done|].
  unfold mbind, M_bind.
  destruct (init_conn svc user ziter.2 need_notify w) as [[] w1]. apply IH.
Qed.

(** [init] is the run of its steps. *)
Lemma init_run_steps w : init svc user w = run_steps svc user (init_steps svc) w.
Proof.
  unfold init, init_steps, mbind, M_bind.
  rewrite run_steps_app, <- !init_conns_run_steps.
  by destruct (init_conns svc user (zones _) true w) as [[] w1].
Qed.

Lemma run_steps_cons z need_notify steps w :
  (run_steps svc user ((z, need_notify) :: steps) w).2 =
    (run_steps svc user steps (init_conn svc user z need_notify w).2).2.
Proof.
  simpl. unfold mbind, M_bind.
  by destruct (init_conn svc user z need_notify w) as [[] w1].
Qed.

(** Which zone ids the three tables hold after a run. *)
Lemma run_steps_conns_map steps w i :
  is_Some (conns_map (this (run_steps svc user steps w).2) !! i)
  ↔ is_Some (conns_map (this w) !! i)
    ∨ ∃ z nn, (z, nn) ∈ steps ∧ skipped svc z = false ∧ dp_id z = i.
Proof.
  revert w. induction steps as [|[z nn] steps IH]; intros w.
  - simpl. split; [by left|]. intros [H|(z & nn & H & _)]; [done|].
    by apply elem_of_nil in H.
  - rewrite run_steps_cons, IH, init_conn_conns_map.
    destruct (skipped svc z) eqn:E; simpl.
    + split.
      * intros [H|(z' & nn' & H & H1 & H2)]; [by left|].
        right. exists z', nn'. split_and!; [by apply elem_of_cons; right|done..].
      * intros [H|(z' & nn' & H & H1 & H2)]; [by left|].
        apply elem_of_cons in H as [H|H]; [congruence|]. right. by exists z', nn'.
    + case_bool_decide as Hi.
      * split; [|intros _; left; by eexists].
        intros _. right. exists z, nn. split_and!; [apply elem_of_cons; by left|done..].
      * split.
        -- intros [H|(z' & nn' & H & H1 & H2)]; [by left|].
           right. exists z', nn'. split_and!; [by apply elem_of_cons; right|done..].
        -- intros [H|(z' & nn' & H & H1 & H2)]; [by left|].
           apply elem_of_cons in H as [H|H]; [congruence|]. right. by exists z', nn'.
Qed.

Lemma run_steps_meta_notify steps w i :
  is_Some (zone_meta_notify_to_map (this (run_steps svc user steps w).2) !! i)
  ↔ is_Some (zone_meta_notify_to_map (this w) !! i)
    ∨ ∃ z, (z, true) ∈ steps ∧ skipped svc z = false ∧ dp_id z = i.
Proof.
  revert w. induction steps as [|[z nn] steps IH]; intros w.
  - simpl. split; [by left|]. intros [H|(z & H & _)]; [done|].
    by apply elem_of_nil in H.
  - rewrite run_steps_cons, IH, init_conn_meta_notify.
    destruct (negb (skipped svc z) && nn && bool_decide (dp_id z = i)) eqn:E.
    + apply andb_true_iff in E as [E Hi]. apply andb_true_iff in E as [E Hn].
      apply negb_true_iff in E. apply bool_decide_eq_true in Hi.
      apply Is_true_true in Hn. destruct nn; [|done].
      split; [|intros _; left; by eexists].
      intros _. right. exists z. split_and!; [apply elem_of_cons; by left|done..].
    + split.
      * intros [H|(z' & H & H1 & H2)]; [by left|].
        right. exists z'. split_and!; [by apply elem_of_cons; right|done..].
      * intros [H|(z' & H & H1 & H2)]; [by left|].
        apply elem_of_cons in H as [H|H]; [|right; by exists z'].
        simplify_eq. rewrite H1 in E. simpl in E.
        by rewrite bool_decide_eq_true_2 in E.
Qed.

Lemma run_steps_data_notify steps w i :
  is_Some (zone_data_notify_to_map (this (run_steps svc user steps w).2) !! i)
  ↔ is_Some (zone_data_notify_to_map (this w) !! i)
    ∨ ∃ z, (z, true) ∈ steps ∧ skipped svc z = false ∧ dp_id z = i
           ∧ i ∈ get_zone_data_notify_set svc.
Proof.
  revert w. induction steps as [|[z nn] steps IH]; intros w.
  - simpl. split; [by left|]. intros [H|(z & H & _)]; [done|].
    by apply elem_of_nil in H.
  - rewrite run_steps_cons, IH, init_conn_data_notify.
    destruct (negb (skipped svc z) && nn
              && bool_decide (dp_id z ∈ get_zone_data_notify_set svc)
              && bool_decide (dp_id z = i)) eqn:E.
    + apply andb_true_iff in E as [E Hi]. apply andb_true_iff in E as [E Hs].
      apply andb_true_iff in E as [E Hn].
      apply negb_true_iff in E. apply bool_decide_eq_true in Hi, Hs.
      destruct nn; [|done]. subst i.
      split; [|intros _; left; by eexists].
      intros _. right. exists z. split_and!; [apply elem_of_cons; by left|done..].
    + split.
      * intros [H|(z' & H & H1 & H2 & H3)]; [by left|].
        right. exists z'. split_and!; [by apply elem_of_cons; right|done..].
      * intros [H|(z' & H & H1 & H2 & H3)]; [by left|].
        apply elem_of_cons in H as [H|H]; [|right; by exists z'].
        simplify_eq. rewrite H1 in E. simpl in E.
        by rewrite !bool_decide_eq_true_2 in E.
Qed.

(** A run only appends to the heap, every new cell is live, and the new
    addresses are appended to [alloc_conns] one by one. *)
Lemma run_steps_allocs steps w :
  ∃ cs,
    heap (run_steps svc user steps w).2 = heap w ++ (Some <$> cs)
    ∧ alloc_conns (this (run_steps svc user steps w).2) =
        alloc_conns (this w) ++ (Some <$> seq (length (heap w)) (length cs)).
Proof.
  revert w. induction steps as [|[z nn] steps IH]; intros w.
  - exists []. simpl. by rewrite !app_nil_r.
  - rewrite run_steps_cons.
    destruct (init_conn_allocs z nn w) as (cs1 & Hh1 & Ha1 & _).
    destruct (IH (init_conn svc user z nn w).2) as (cs2 & Hh2 & Ha2).
    exists (cs1 ++ cs2). rewrite Hh2, Ha2, Hh1, Ha1.
    rewrite fmap_app, !length_app, length_fmap, seq_app, fmap_app.
    by rewrite !app_assoc.
Qed.

Lemma init_conn_registered z need_notify w :
  handles_registered w →
  handles_registered (init_conn svc user z need_notify w).2.
Proof.
  intros Hreg i c. rewrite init_conn_conns_map.
  destruct (init_conn_allocs z need_notify w) as (cs & _ & -> & Hlen).
  destruct (skipped svc z) eqn:E; simpl.
  - intros H. destruct (Hreg i c H). split; apply elem_of_app; by left.
  - specialize (Hlen eq_refl). case_bool_decide.
    + intros [= <-]. unfold entry_of. simpl.
      split; apply elem_of_app; right; apply list_elem_of_fmap;
        destruct (sip_conf z);
        eexists; (split; [reflexivity|]); apply elem_of_seq; lia.
    + intros H'. destruct (Hreg i c H'). split; apply elem_of_app; by left.
Qed.

Lemma run_steps_registered steps w :
  handles_registered w → handles_registered (run_steps svc user steps w).2.
Proof.
  revert w. induction steps as [|[z nn] steps IH]; intros w Hreg; [done|].
  rewrite run_steps_cons. by apply IH, init_conn_registered.
Qed.

(** In a directory grown from a fresh one, the handles of every pair point to
    live connections. *)
Lemma run_steps_live steps h l i c :
  conns_map (this (run_steps svc user steps (World_new h l)).2) !! i = Some c →
  is_Some (deref (heap (run_steps svc user steps (World_new h l)).2) (data c))
  ∧ is_Some (deref (heap (run_steps svc user steps (World_new h l)).2) (sip c)).
Proof.
  intros Hc.
  assert (Hreg : handles_registered (run_steps svc user steps (World_new h l)).2).
  { apply run_steps_registered. intros j c'. simpl. by rewrite lookup_empty. }
  destruct (run_steps_allocs steps (World_new h l)) as (cs & Hh & Ha).
  simpl in Hh, Ha.
  assert (Hlive : ∀ p, p ∈ alloc_conns (this (run_steps svc user steps
                                               (World_new h l)).2) →
                       is_Some (deref (h ++ (Some <$> cs)) p)).
  { intros p. rewrite Ha. intros (a & -> & Hin)%list_elem_of_fmap.
    apply elem_of_seq in Hin. unfold deref. simpl.
    rewrite lookup_app_r by lia. rewrite list_lookup_fmap.
    destruct (lookup_lt_is_Some_2 cs (a - length h)) as [c' ->]; [lia|]. by eexists. }
  rewrite Hh. destruct (Hreg i c Hc). split; by apply Hlive.
Qed.

(** Steps for other zones leave the pair of a zone alone. *)
Lemma run_steps_conns_map_frame steps w i :
  (∀ z nn, (z, nn) ∈ steps → dp_id z ≠ i) →
  conns_map (this (run_steps svc user steps w).2) !! i = conns_map (this w) !! i.
Proof.
  revert w. induction steps as [|[z nn] steps IH]; intros w Hne; [done|].
  rewrite run_steps_cons, IH, init_conn_conns_map.
  - rewrite (bool_decide_eq_false_2 (dp_id z = i)); [by rewrite andb_false_r|].
    apply (Hne z nn), elem_of_cons. by left.
  - intros z' nn' H. apply (Hne z' nn'), elem_of_cons. by right.
Qed.

(** When no two steps are for the same zone id, the pair of a zone that is
    not skipped is the one its own step wrote. *)
Lemma run_steps_entry steps w z nn :
  NoDup ((λ step : RGWDataProvider * bool, dp_id step.1) <$> steps) →
  (z, nn) ∈ steps → skipped svc z = false →
  ∃ n, conns_map (this (run_steps svc user steps w).2) !! dp_id z
       = Some (entry_of z n).
Proof.
  intros Hnd (steps1 & steps2 & ->)%list_elem_of_split Hsk.
  rewrite run_steps_app, run_steps_cons.
  rewrite fmap_app, fmap_cons in Hnd. simpl in Hnd.
  apply NoDup_app in Hnd as (_ & _ & Hnd). apply NoDup_cons in Hnd as [Hnotin _].
  rewrite run_steps_conns_map_frame.
  - rewrite init_conn_conns_map, Hsk. simpl.
    rewrite bool_decide_eq_true_2 by done. by eexists.
  - intros z' nn' Hin Heq. apply Hnotin. rewrite <- Heq.
    apply list_elem_of_fmap. by exists (z', nn').
Qed.

(** The steps of [init] and the zones of the zone group. *)
Lemma init_steps_zone z nn :
  (z, nn) ∈ init_steps svc →
  if nn then z ∈ member_zones svc else z ∈ foreign_zone_list svc.
Proof.
  unfold init_steps, member_zones, foreign_zone_list.
  intros [H|H]%elem_of_app; apply list_elem_of_fmap in H as ([k z'] & [= -> ->] & H);
    apply list_elem_of_fmap; by exists (k, z').
Qed.

Lemma member_zone_step z : z ∈ member_zones svc → (z, true) ∈ init_steps svc.
Proof.
  unfold init_steps, member_zones.
  intros ([k z'] & -> & H)%list_elem_of_fmap. apply elem_of_app. left.
  apply list_elem_of_fmap. by exists (k, z').
Qed.

Lemma foreign_zone_step z : z ∈ foreign_zone_list svc → (z, false) ∈ init_steps svc.
Proof.
  unfold init_steps, foreign_zone_list.
  intros ([k z'] & -> & H)%list_elem_of_fmap. apply elem_of_app. right.
  apply list_elem_of_fmap. by exists (k, z').
Qed.

Lemma init_steps_ids :
  (λ step : RGWDataProvider * bool, dp_id step.1) <$> init_steps svc
  = dp_id <$> (member_zones svc ++ foreign_zone_list svc).
Proof.
  unfold init_steps, member_zones, foreign_zone_list.
  rewrite !fmap_app, <- !list_fmap_compose. done.
Qed.

(** Under distinct zone ids a zone is its id. *)
Lemma distinct_zone_ids_inj z z' nn nn' :
  distinct_zone_ids svc →
  (z, nn) ∈ init_steps svc → (z', nn') ∈ init_steps svc →
  dp_id z = dp_id z' → z = z'.
Proof.
  unfold distinct_zone_ids. rewrite <- init_steps_ids.
  generalize (init_steps svc). intros steps Hnd H H' Heq.
  apply list_elem_of_lookup in H as [k Hk], H' as [k' Hk'].
  assert (k = k') as ->.
  { eapply NoDup_lookup; [exact Hnd| |];
      rewrite list_lookup_fmap; [rewrite Hk|rewrite Hk']; simpl; [done|].
    by rewrite Heq. }
  congruence.
Qed.

Lemma zone_step z :
  z ∈ member_zones svc ++ foreign_zone_list svc → ∃ nn, (z, nn) ∈ init_steps svc.
Proof.
  intros [H|H]%elem_of_app.
  - exists true. by apply member_zone_step.
  - exists false. by apply foreign_zone_step.
Qed.

(** Under distinct zone ids, a zone has a pair after [init] exactly when its
    own step was not skipped. *)
Lemma init_zone_conns_is_Some z h l :
  distinct_zone_ids svc → z ∈ member_zones svc ++ foreign_zone_list svc →
  is_Some (zone_conns (dp_id z) (init svc user (World_new h l)).2)
  ↔ skipped svc z = false.
Proof.
  intros Hnd Hz. unfold zone_conns. rewrite init_run_steps, run_steps_conns_map.
  destruct (zone_step z Hz) as [nn Hstep]. split.
  - intros [H|(z' & nn' & Hin & Hsk & Heq)].
    + simpl in H. rewrite lookup_empty in H. by destruct H.
    + by rewrite <- (distinct_zone_ids_inj z' z nn' nn Hnd Hin Hstep Heq).
  - intros Hsk. right. by exists z, nn.
Qed.

(** The teardown of a directory that owns the cells [cs] allocated after
    [h]. *)
Lemma delete_conns_seq h (cs : list RGWRESTConn) :
  delete_conns (Some <$> seq (length h) (length cs)) (h ++ (Some <$> cs))
  = Some (h ++ replicate (length cs) None).
Proof.
  revert h. induction cs as [|c cs IH]; intros h; [done|].
  simpl. rewrite list_lookup_middle by done. simpl.
  rewrite insert_app_r_alt by lia. rewrite Nat.sub_diag. simpl.
  rewrite (cons_middle None h), app_assoc.
  replace (S (length h)) with (length (h ++ [None])).
  - rewrite IH. by rewrite <- app_assoc.
  - rewrite length_app. simpl. lia.
Qed.

(** C8.  A call of [init_conn] for the local zone itself returns at once: the
    connection directory, both notify tables, the list of owned handles, the
    heap and the store log are exactly what they were. *)
Theorem init_conn_local_zone_noop z need_notify w :
  dp_id z = zone_id svc → init_conn svc user z need_notify w = (tt, w).
Proof.
  intros H. apply init_conn_skip. unfold skipped.
  by rewrite bool_decide_eq_true_2.
Qed.

(** C5.  A zone whose endpoint list is empty even after the fallback to its
    data-access override is skipped: its call of [init_conn] changes nothing
    (so allocates no connection), and after [init] the directory has no entry
    for it, whether it is looked up by id or by a name that resolves to its
    id.  Zone ids are taken to be distinct across the zone group. *)
Theorem init_skips_zone_without_endpoints z h l :
  distinct_zone_ids svc → z ∈ member_zones svc ++ foreign_zone_list svc →
  def_endpoints_of z = [] →
  (∀ need_notify w, init_conn svc user z need_notify w = (tt, w))
  ∧ zone_conns (dp_id z) (init svc user (World_new h l)).2 = None
  ∧ (∀ name, find_zone_id_by_name svc name = Some (dp_id z) →
       zone_conns_by_name svc name (init svc user (World_new h l)).2 = None).
Proof.
  intros Hnd Hz Hemp.
  assert (Hsk : skipped svc z = true).
  { unfold skipped. rewrite Hemp. apply orb_true_r. }
  assert (Hnone : zone_conns (dp_id z) (init svc user (World_new h l)).2 = None).
  { apply eq_None_not_Some. rewrite init_zone_conns_is_Some by done. congruence. }
  split_and!; [|done|].
  - intros nn w. by apply init_conn_skip.
  - intros name Hname. unfold zone_conns_by_name. by rewrite Hname.
Qed.

(** C3.  After [init], the pair stored for a zone without sync-index override
    has one and the same handle in both slots, and the pair stored for a zone
    with a sync-index override has two different handles; in both cases the
    handles point to live connections.  Zone ids are taken to be distinct
    across the zone group. *)
Theorem init_sip_aliases_data_unless_overridden z h l c :
  distinct_zone_ids svc → z ∈ member_zones svc ++ foreign_zone_list svc →
  zone_conns (dp_id z) (init svc user (World_new h l)).2 = Some c →
  is_Some (deref (heap (init svc user (World_new h l)).2) (data c))
  ∧ is_Some (deref (heap (init svc user (World_new h l)).2) (sip c))
  ∧ match sip_conf z with
    | None => sip c = data c
    | Some _ => sip c ≠ data c
    end.
Proof.
  intros Hnd Hz Hc.
  assert (Hsk : skipped svc z = false).
  { apply (init_zone_conns_is_Some z h l Hnd Hz). by eexists. }
  unfold zone_conns in Hc. rewrite init_run_steps in *.
  destruct (run_steps_live _ _ _ _ _ Hc) as [Hd Hs]. split_and!; [done..|].
  destruct (zone_step z Hz) as [nn Hstep].
  destruct (run_steps_entry (init_steps svc) (World_new h l) z nn) as [n Hn];
    [|done..|].
  { rewrite init_steps_ids. exact Hnd. }
  rewrite Hn in Hc. injection Hc as <-. unfold entry_of. simpl.
  destruct (sip_conf z); [|done]. intros [= H]. lia.
Qed.

(** C4.  After [init], a member zone that has a directory entry is in the
    metadata-notify table, and is in the data-notify table exactly when the
    data-notify set of the topology service holds its id; a foreign zone is in
    neither table.  Foreign zones are taken to carry ids other than those of
    the member zones. *)
Theorem init_notify_tables h l :
  foreign_ids_apart svc →
  (∀ z, z ∈ member_zones svc →
     is_Some (zone_conns (dp_id z) (init svc user (World_new h l)).2) →
     is_Some (zone_meta_notify_to_map (this (init svc user (World_new h l)).2)
                !! dp_id z)
     ∧ (is_Some (zone_data_notify_to_map (this (init svc user (World_new h l)).2)
                   !! dp_id z)
        ↔ dp_id z ∈ get_zone_data_notify_set svc))
  ∧ (∀ f, f ∈ foreign_zone_list svc →
       zone_meta_notify_to_map (this (init svc user (World_new h l)).2) !! dp_id f
         = None
       ∧ zone_data_notify_to_map (this (init svc user (World_new h l)).2) !! dp_id f
           = None).
Proof.
  intros Hapart. unfold zone_conns. rewrite init_run_steps. split.
  - intros z Hz.
    rewrite run_steps_conns_map, run_steps_meta_notify, run_steps_data_notify.
    simpl. rewrite !lookup_empty.
    intros [[? [=]]|(z' & nn & Hin & Hsk & Heq)].
    pose proof (init_steps_zone z' nn Hin) as Hz'. destruct nn.
    + split; [right; by exists z'|]. split.
      * by intros [[? [=]]|(? & _ & _ & _ & ?)].
      * intros Hset. right. by exists z'.
    + by destruct (Hapart z z' Hz Hz').
  - intros f Hf. split; apply eq_None_not_Some.
    + rewrite run_steps_meta_notify. simpl. rewrite lookup_empty.
      intros [[? [=]]|(z' & Hin & _ & Heq)].
      by apply (Hapart z' f (init_steps_zone z' true Hin) Hf).
    + rewrite run_steps_data_notify. simpl. rewrite lookup_empty.
      intros [[? [=]]|(z' & Hin & _ & Heq & _)].
      by apply (Hapart z' f (init_steps_zone z' true Hin) Hf).
Qed.

(** C9.  [init] on a fresh directory registers every connection it
    allocates exactly once: the list of owned handles is the list of the new
    addresses, in order of allocation and without repetition even where a
    pair holds one handle in both slots; every handle of every pair is in
    that list; and the destructor, which deletes the list entry by entry,
    never deletes a cell twice and leaves every new cell freed and the older
    heap as it was. *)
Theorem init_owns_each_handle_once h l :
  ∃ cs : list RGWRESTConn,
    heap (init svc user (World_new h l)).2 = h ++ (Some <$> cs)
    ∧ alloc_conns (this (init svc user (World_new h l)).2)
        = Some <$> seq (length h) (length cs)
    ∧ NoDup (alloc_conns (this (init svc user (World_new h l)).2))
    ∧ handles_registered (init svc user (World_new h l)).2
    ∧ destructor (init svc user (World_new h l)).2
        = Some (h ++ replicate (length cs) None).
Proof.
  rewrite init_run_steps.
  destruct (run_steps_allocs (init_steps svc) (World_new h l)) as (cs & Hh & Ha).
  simpl in Hh, Ha. exists cs. split_and!; [done..| | |].
  - rewrite Ha. apply (NoDup_fmap_2 Some), NoDup_seq.
  - apply run_steps_registered. intros i c. simpl. by rewrite lookup_empty.
  - unfold destructor. rewrite Hh, Ha. apply delete_conns_seq.
Qed.

(** C7.  In a directory grown from a fresh one by calls of [init_conn] (the
    run of [init] is one), [get_redirect_zone_endpoint] always returns: it
    never dereferences a null or dangling handle.  It returns [false] exactly
    when the local zone has no redirect zone, or the redirect zone has no
    entry in [conns_map], or [get_url] of the data connection of that entry
    reports an error; when it returns [true] the endpoint handed back is the
    one [get_url] of that connection wrote. *)
Theorem get_redirect_zone_endpoint_absent_cases steps h l endpoint :
  let w := (run_steps svc user steps (World_new h l)).2 in
  ∃ found e,
    get_redirect_zone_endpoint svc get_url endpoint w = Some (found, e)
    ∧ (found = false
       ↔ redirect_zone svc = ""
         ∨ zone_conns (redirect_zone svc) w = None
         ∨ ∃ c conn, zone_conns (redirect_zone svc) w = Some c
                     ∧ deref (heap w) (data c) = Some conn
                     ∧ ((get_url conn endpoint).1 < 0)%Z)
    ∧ (found = true
       → ∃ c conn, zone_conns (redirect_zone svc) w = Some c
                   ∧ deref (heap w) (data c) = Some conn
                   ∧ e = (get_url conn endpoint).2).
Proof.
  intros w. unfold get_redirect_zone_endpoint, zone_conns.
  destruct (decide (redirect_zone svc = "")) as [Hrz|Hrz].
  { exists false, endpoint. split_and!; [done| |done]. split; [by left|done]. }
  destruct (conns_map (this w) !! redirect_zone svc) as [c|] eqn:Hc.
  2:{ exists false, endpoint. split_and!; [done| |done].
      split; [right; by left|done]. }
  destruct (run_steps_live steps h l _ c Hc) as [[conn Hconn] _].
  fold w in Hconn. rewrite Hconn. simpl.
  destruct (get_url conn endpoint) as [ret e] eqn:Hurl.
  destruct (ret <? 0)%Z eqn:Hret.
  - exists false, e. split_and!; [done| |done].
    split; [|done]. intros _. right. right. exists c, conn.
    rewrite Hurl. simpl. split_and!; [done..|lia].
  - exists true, e. split_and!; [done| |].
    + split; [done|]. intros [?|[?|(c' & conn' & [= <-] & Hd & Hneg)]]; [done..|].
      rewrite Hconn in Hd. injection Hd as <-. rewrite Hurl in Hneg.
      simpl in Hneg. lia.
    + intros _. exists c, conn. by rewrite Hurl.
Qed.

(** * Further properties of the code *)

(** ** Credential resolver and connection factory *)

Lemma get_access_key_lookups dest_id uid access_key secret result w :
  lookups (get_access_key user dest_id uid access_key secret result w).2
  = lookups w ++ store_calls_of uid access_key secret.
Proof.
  unfold get_access_key, store_calls_of, mbind, M_bind, mret, M_ret,
    get_info_by_access_key, get_info_by_uid.
  destruct access_key as [ak|], secret as [s|], uid as [u|]; simpl;
    rewrite ?app_nil_r; try done; by repeat case_match.
Qed.

(** The answer of [get_access_key] depends on the credential reference and on
    the store only, not on the label of the peer or on the state. *)
Lemma get_access_key_pure dest_id dest_id' uid access_key secret result w w' :
  (get_access_key user dest_id uid access_key secret result w).1
  = (get_access_key user dest_id' uid access_key secret result w').1.
Proof.
  unfold get_access_key, mbind, M_bind, mret, M_ret,
    get_info_by_access_key, get_info_by_uid.
  destruct access_key as [ak|], secret as [s|], uid as [u|]; simpl;
    try done; by repeat case_match.
Qed.

(** X13.  When [get_access_key] returns [false], the secret held in [*result]
    is the one it held before, and its id is the access-key id supplied, if
    one was, and else the one it held before: line 41 writes the id before
    the store is asked. *)
Theorem get_access_key_result_on_failure dest_id uid access_key secret result w :
  (get_access_key user dest_id uid access_key secret result w).1.1 = false →
  ak_key (get_access_key user dest_id uid access_key secret result w).1.2
    = ak_key result
  ∧ ak_id (get_access_key user dest_id uid access_key secret result w).1.2
    = default (ak_id result) access_key.
Proof.
  unfold get_access_key, mbind, M_bind, mret, M_ret,
    get_info_by_access_key, get_info_by_uid, first_access_key.
  destruct access_key as [ak|], secret as [s|], uid as [u|]; simpl; try done;
    repeat case_match; simplify_eq/=; done.
Qed.

(** [create_conn] from a channel override, in one equation. *)
Lemma create_conn_equation zone_name id def_endpoints conf api_name w :
  create_conn svc user zone_name id def_endpoints conf api_name w =
    (Some (length (heap w)),
     {| heap := heap w ++
          [Some {| remote_id := id;
                   conn_endpoints := match rc_endpoints conf with
                                     | Some endpoints => endpoints
                                     | None => def_endpoints
                                     end;
                   conn_key := conn_key_for svc user conf;
                   self_zone_group := zg_id (get_zonegroup svc);
                   conn_api_name := api_name |}];
        lookups := lookups w
                   ++ store_calls_of (rc_uid conf) (rc_access_key conf) (rc_secret conf);
        this := this w |}).
Proof.
  rewrite create_conn_unfold. rewrite get_access_key_lookups.
  unfold conn_key_for, resolve.
  rewrite (get_access_key_pure zone_name "" _ _ _ _ w (World_new [] [])).
  by destruct (rc_endpoints conf).
Qed.

(** X10.  [create_conn] from a channel override returns a handle that was
    not live before and points afterwards to the one connection it allocates;
    it leaves every older cell of the heap and the whole directory as they
    were, and the store log grows by the calls of one credential resolution.
    The connection is to the given zone id in the local zone group; its
    endpoint list is that of the override when the override has one and the
    default list otherwise; its key is the key the override resolves to, or
    else the system key, whatever the name of the zone and the state. *)
Theorem create_conn_effect zone_name id def_endpoints conf api_name w :
  ∃ a,
    (create_conn svc user zone_name id def_endpoints conf api_name w).1 = Some a
    ∧ deref (heap w) (Some a) = None
    ∧ deref (heap (create_conn svc user zone_name id def_endpoints conf
                     api_name w).2) (Some a)
      = Some {| remote_id := id;
                conn_endpoints := match rc_endpoints conf with
                                  | Some endpoints => endpoints
                                  | None => def_endpoints
                                  end;
                conn_key := conn_key_for svc user conf;
                self_zone_group := zg_id (get_zonegroup svc);
                conn_api_name := api_name |}
    ∧ heap w `prefix_of` heap (create_conn svc user zone_name id def_endpoints
                                 conf api_name w).2
    ∧ length (heap (create_conn svc user zone_name id def_endpoints conf
                      api_name w).2) = S (length (heap w))
    ∧ lookups (create_conn svc user zone_name id def_endpoints conf api_name w).2
      = lookups w
        ++ store_calls_of (rc_uid conf) (rc_access_key conf) (rc_secret conf)
    ∧ this (create_conn svc user zone_name id def_endpoints conf api_name w).2
      = this w.
Proof.
  rewrite create_conn_equation. simpl. exists (length (heap w)).
  unfold deref. simpl. split_and!; try done.
  - by rewrite lookup_ge_None_2.
  - by rewrite list_lookup_middle.
  - by eexists.
  - rewrite length_app. simpl. lia.
Qed.

(** Deleting handles that are live in [h] does the same in a longer heap. *)
Lemma delete_conns_app ps h h' ext :
  delete_conns ps h = Some h' → delete_conns ps (h ++ ext) = Some (h' ++ ext).
Proof.
  revert h. induction ps as [|[a|] ps IH]; intros h; simpl.
  - by intros [= ->].
  - destruct (h !! a) as [[c|]|] eqn:E; simpl; try done.
    rewrite (lookup_app_l_Some _ _ _ _ E). simpl.
    rewrite insert_app_l by (by eapply lookup_lt_Some). apply IH.
  - apply IH.
Qed.

(** X11.  Neither [create_conn] registers the connection it allocates: the
    list of owned handles is what it was, and a teardown that would have
    succeeded before still succeeds and leaves the new connection live. *)
Theorem create_conn_result_not_owned
    zone_name id def_endpoints conf remote endpoints key api_name w h' :
  destructor w = Some h' →
  (alloc_conns (this (create_conn svc user zone_name id def_endpoints conf
                        api_name w).2) = alloc_conns (this w)
   ∧ ∃ c, destructor (create_conn svc user zone_name id def_endpoints conf
                        api_name w).2 = Some (h' ++ [Some c]))
  ∧ (alloc_conns (this (create_conn_explicit svc remote endpoints key
                          api_name w).2) = alloc_conns (this w)
     ∧ ∃ c, destructor (create_conn_explicit svc remote endpoints key
                          api_name w).2 = Some (h' ++ [Some c])).
Proof.
  unfold destructor. intros Hd. split.
  - destruct (create_conn_alloc zone_name id def_endpoints conf api_name w)
      as (c & ls & ->). simpl. split; [done|].
    exists c. by apply delete_conns_app.
  - unfold create_conn_explicit, new_RGWRESTConn. simpl. split; [done|].
    eexists. by apply delete_conns_app.
Qed.

(** ** One call of [init_conn]: the connections and the store calls *)

(** The cells a call that is not skipped appends to the heap, and the store
    calls it makes. *)
Lemma init_conn_heap_lookups z need_notify w :
  skipped svc z = false →
  let mk (endpoints : list string) (key : RGWAccessKey) :=
    {| remote_id := dp_id z; conn_endpoints := endpoints; conn_key := key;
       self_zone_group := zg_id (get_zonegroup svc);
       conn_api_name := zg_api_name <$> find_zonegroup_by_zone svc (dp_id z) |} in
  heap (init_conn svc user z need_notify w).2 =
    heap w
    ++ Some (match data_access_conf z with
             | Some conf =>
                 mk (default (def_endpoints_of z) (rc_endpoints conf))
                    (conn_key_for svc user conf)
             | None => mk (dp_endpoints z) (system_key svc)
             end)
       :: match sip_conf z with
          | Some sc =>
              [Some (mk (default (def_endpoints_of z) (rc_endpoints (rest_conf sc)))
                        (conn_key_for svc user (rest_conf sc)))]
          | None => []
          end
  ∧ lookups (init_conn svc user z need_notify w).2
    = lookups w ++ zone_store_calls svc z.
Proof.
  intros Hsk mk. unfold zone_store_calls. rewrite Hsk.
  unfold skipped in Hsk. apply orb_false_iff in Hsk as [Hid Hemp].
  apply bool_decide_eq_false in Hid.
  unfold init_conn. rewrite decide_False by done. rewrite Hemp.
  unfold mbind, M_bind, conns_map_index, add_conn, set_conns_data, set_conns_sip,
    get_conns_data, modify_this, mbind, M_bind, mret, M_ret, new_RGWRESTConn.
  destruct w as [hp lg t]. simpl.
  destruct (data_access_conf z) as [conf|] eqn:Hd;
    [rewrite create_conn_equation|]; simpl;
    (destruct (sip_conf z) as [sc|] eqn:Hs; [rewrite create_conn_equation|]);
    simpl;
    (destruct need_notify; simpl;
     [destruct (decide (dp_id z ∈ get_zone_data_notify_set svc))|]);
    simpl; rewrite <- ?app_assoc, ?app_nil_r; simpl; subst mk; simpl;
    repeat match goal with
           | |- context [rc_endpoints ?c] => destruct (rc_endpoints c)
           end; done.
Qed.

(** ** Runs: what is allocated and what is asked *)

Lemma init_steps_zones :
  (init_steps svc).*1 = member_zones svc ++ foreign_zone_list svc.
Proof.
  unfold init_steps, member_zones, foreign_zone_list.
  rewrite !fmap_app, <- !list_fmap_compose. done.
Qed.

Lemma init_conn_count z need_notify w :
  length (heap (init_conn svc user z need_notify w).2)
    = length (heap w) + connections_built svc z
  ∧ length (alloc_conns (this (init_conn svc user z need_notify w).2))
    = length (alloc_conns (this w)) + connections_built svc z.
Proof.
  unfold connections_built. destruct (skipped svc z) eqn:E.
  - rewrite init_conn_skip by done. simpl. lia.
  - destruct (init_conn_build z need_notify w E) as (cs & Hl & -> & ->). simpl.
    rewrite !length_app, !length_fmap, length_seq. lia.
Qed.

Lemma run_steps_count steps w :
  length (heap (run_steps svc user steps w).2)
    = length (heap w) + sum_list (connections_built svc <$> steps.*1)
  ∧ length (alloc_conns (this (run_steps svc user steps w).2))
    = length (alloc_conns (this w)) + sum_list (connections_built svc <$> steps.*1).
Proof.
  revert w. induction steps as [|[z nn] steps IH]; intros w.
  - simpl. lia.
  - rewrite run_steps_cons.
    destruct (IH (init_conn svc user z nn w).2) as [-> ->].
    destruct (init_conn_count z nn w) as [-> ->]. rewrite !fmap_cons. simpl. lia.
Qed.

Lemma init_conn_lookups z need_notify w :
  lookups (init_conn svc user z need_notify w).2
  = lookups w ++ zone_store_calls svc z.
Proof.
  destruct (skipped svc z) eqn:E.
  - rewrite init_conn_skip by done. unfold zone_store_calls. rewrite E.
    simpl. by rewrite app_nil_r.
  - by destruct (init_conn_heap_lookups z need_notify w E) as [_ ->].
Qed.

Lemma run_steps_lookups steps w :
  lookups (run_steps svc user steps w).2
  = lookups w ++ concat (zone_store_calls svc <$> steps.*1).
Proof.
  revert w. induction steps as [|[z nn] steps IH]; intros w.
  - simpl. by rewrite app_nil_r.
  - rewrite run_steps_cons, IH, init_conn_lookups, !fmap_cons. simpl.
    by rewrite app_assoc.
Qed.

(** X8.  [init] on a fresh directory allocates one connection for every zone
    it does not skip and one more for every such zone with a sync-index
    override, member zones and foreign zones alike, and owns as many
    handles. *)
Theorem init_connection_count h l :
  length (heap (init svc user (World_new h l)).2)
    = length h
      + sum_list (connections_built svc
                    <$> (member_zones svc ++ foreign_zone_list svc))
  ∧ length (alloc_conns (this (init svc user (World_new h l)).2))
    = sum_list (connections_built svc
                  <$> (member_zones svc ++ foreign_zone_list svc)).
Proof.
  rewrite init_run_steps, <- init_steps_zones.
  by destruct (run_steps_count (init_steps svc) (World_new h l)) as [-> ->].
Qed.

(** X12.  [init] asks the credential store only on behalf of the overrides
    of the zones it does not skip: zone by zone, member zones first, the calls
    of the data-access override and then those of the sync-index override,
    each override costing one call when it names an access-key id without
    secret or, failing an access-key id, a user, and none otherwise. *)
Theorem init_store_calls h l :
  lookups (init svc user (World_new h l)).2
  = l ++ concat (zone_store_calls svc
                   <$> (member_zones svc ++ foreign_zone_list svc)).
Proof. by rewrite init_run_steps, run_steps_lookups, init_steps_zones. Qed.

(** X1.  The keys of the directory after [init] on a fresh directory are the
    ids of the zones of the zone group, member or foreign, that are not
    skipped: a zone id has a pair exactly when some zone with that id is not
    the local zone and has an endpoint after the fallback. *)
Theorem init_directory_keys h l i :
  is_Some (zone_conns i (init svc user (World_new h l)).2)
  ↔ ∃ z, z ∈ member_zones svc ++ foreign_zone_list svc
         ∧ skipped svc z = false ∧ dp_id z = i.
Proof.
  unfold zone_conns. rewrite init_run_steps, run_steps_conns_map. simpl.
  rewrite lookup_empty. split.
  - intros [[? [=]]|(z & nn & Hin & Hsk & Hid)]. exists z. split_and!; [|done..].
    rewrite <- init_steps_zones. apply list_elem_of_fmap. by exists (z, nn).
  - intros (z & Hz & Hsk & Hid). right.
    destruct (zone_step z Hz) as [nn Hin]. by exists z, nn.
Qed.

(** X2.  However often and for whatever zones [init_conn] is called on a
    fresh directory, the local zone gets no pair and no entry in either
    notify table. *)
Theorem local_zone_never_connected steps h l :
  zone_conns (zone_id svc) (run_steps svc user steps (World_new h l)).2 = None
  ∧ zone_meta_notify_to_map (this (run_steps svc user steps (World_new h l)).2)
      !! zone_id svc = None
  ∧ zone_data_notify_to_map (this (run_steps svc user steps (World_new h l)).2)
      !! zone_id svc = None.
Proof.
  assert (Hlocal : ∀ z, skipped svc z = false → dp_id z = zone_id svc → False).
  { unfold skipped. intros z Hsk Hid. by rewrite bool_decide_eq_true_2 in Hsk. }
  unfold zone_conns. split_and!; apply eq_None_not_Some.
  - rewrite run_steps_conns_map. simpl. rewrite lookup_empty.
    intros [[? [=]]|(z & nn & _ & Hsk & Hid)]. eauto.
  - rewrite run_steps_meta_notify. simpl. rewrite lookup_empty.
    intros [[? [=]]|(z & _ & Hsk & Hid)]. eauto.
  - rewrite run_steps_data_notify. simpl. rewrite lookup_empty.
    intros [[? [=]]|(z & _ & Hsk & Hid & _)]. eauto.
Qed.

(** X17.  A name that the topology service resolves to the local zone has
    no pair, whatever calls of [init_conn] were made on the fresh
    directory. *)
Theorem zone_conns_by_name_local_zone name steps h l :
  find_zone_id_by_name svc name = Some (zone_id svc) →
  zone_conns_by_name svc name (run_steps svc user steps (World_new h l)).2 = None.
Proof.
  intros Hname. unfold zone_conns_by_name. rewrite Hname.
  unfold zone_conns. apply eq_None_not_Some.
  rewrite run_steps_conns_map. simpl. rewrite lookup_empty.
  intros [[? [=]]|(z & nn & _ & Hsk & Hid)].
  unfold skipped in Hsk. by rewrite bool_decide_eq_true_2 in Hsk.
Qed.

(** X3.  A local zone configured as its own redirect zone never redirects:
    [get_redirect_zone_endpoint] returns [false] and leaves [*endpoint] as it
    was, whatever calls of [init_conn] were made on the fresh directory. *)
Theorem get_redirect_zone_endpoint_self steps h l endpoint :
  redirect_zone svc = zone_id svc →
  get_redirect_zone_endpoint svc get_url endpoint
    (run_steps svc user steps (World_new h l)).2 = Some (false, endpoint).
Proof.
  intros Hself. unfold get_redirect_zone_endpoint.
  case_decide; [done|]. rewrite Hself.
  assert (conns_map (this (run_steps svc user steps (World_new h l)).2)
            !! zone_id svc = None) as ->; [|done].
  apply eq_None_not_Some.
  rewrite run_steps_conns_map. simpl. rewrite lookup_empty.
  intros [[? [=]]|(z & nn & _ & Hsk & Hid)].
  unfold skipped in Hsk. by rewrite bool_decide_eq_true_2 in Hsk.
Qed.

(** ** Runs: ownership and what is never undone *)

(** X6.  After any sequence of [init_conn] calls on a fresh directory -- one
    [init], or several in a row -- the destructor deletes every connection
    allocated since, each once, and leaves the older part of the heap as it
    was: the heap is the old one followed by one cell per owned handle, and
    after teardown each of these cells is free. *)
Theorem destructor_after_any_run steps h l :
  length (heap (run_steps svc user steps (World_new h l)).2)
    = length h + length (alloc_conns (this (run_steps svc user steps
                                             (World_new h l)).2))
  ∧ NoDup (alloc_conns (this (run_steps svc user steps (World_new h l)).2))
  ∧ destructor (run_steps svc user steps (World_new h l)).2
    = Some (h ++ replicate
                   (length (alloc_conns (this (run_steps svc user steps
                                                 (World_new h l)).2)))
                   None).
Proof.
  destruct (run_steps_allocs steps (World_new h l)) as (cs & Hh & Ha).
  simpl in Hh, Ha. unfold destructor. rewrite Hh, Ha.
  rewrite length_app, !length_fmap, length_seq. split_and!; [done| |].
  - apply (NoDup_fmap_2 Some), NoDup_seq.
  - apply delete_conns_seq.
Qed.

(** X14.  [init_conn] only ever adds: over any sequence of calls, from any
    state, the heap, the store log and the list of owned handles are extended
    at their end, and a zone id that has a pair or a notify entry keeps
    one. *)
Theorem run_steps_only_adds steps w i :
  heap w `prefix_of` heap (run_steps svc user steps w).2
  ∧ lookups w `prefix_of` lookups (run_steps svc user steps w).2
  ∧ alloc_conns (this w) `prefix_of` alloc_conns (this (run_steps svc user steps w).2)
  ∧ (is_Some (conns_map (this w) !! i)
     → is_Some (conns_map (this (run_steps svc user steps w).2) !! i))
  ∧ (is_Some (zone_meta_notify_to_map (this w) !! i)
     → is_Some (zone_meta_notify_to_map (this (run_steps svc user steps w).2) !! i))
  ∧ (is_Some (zone_data_notify_to_map (this w) !! i)
     → is_Some (zone_data_notify_to_map (this (run_steps svc user steps w).2) !! i)).
Proof.
  destruct (run_steps_allocs steps w) as (cs & -> & ->).
  rewrite run_steps_lookups, run_steps_conns_map, run_steps_meta_notify,
    run_steps_data_notify.
  split_and!; [by eexists..| | |]; by left.
Qed.

(** X15.  In a directory grown from a fresh one, a zone id in the data-notify
    table is in the data-notify set of the topology service and in the
    metadata-notify table, and a zone id in the metadata-notify table has a
    pair. *)
Theorem notify_tables_within_directory steps h l i :
  (is_Some (zone_data_notify_to_map (this (run_steps svc user steps
                                             (World_new h l)).2) !! i)
   → i ∈ get_zone_data_notify_set svc
     ∧ is_Some (zone_meta_notify_to_map (this (run_steps svc user steps
                                                 (World_new h l)).2) !! i))
  ∧ (is_Some (zone_meta_notify_to_map (this (run_steps svc user steps
                                               (World_new h l)).2) !! i)
     → is_Some (zone_conns i (run_steps svc user steps (World_new h l)).2)).
Proof.
  unfold zone_conns.
  rewrite run_steps_conns_map, run_steps_meta_notify, run_steps_data_notify.
  simpl. rewrite !lookup_empty. split.
  - intros [[? [=]]|(z & Hin & Hsk & Hid & Hset)]. split; [done|].
    right. by exists z.
  - intros [[? [=]]|(z & Hin & Hsk & Hid)]. right. by exists z, true.
Qed.

(** Handles in the notify tables are owned handles, call after call. *)
Lemma init_conn_notify_registered z need_notify w :
  notify_registered w → notify_registered (init_conn svc user z need_notify w).2.
Proof.
  intros Hreg i p. rewrite init_conn_meta_notify, init_conn_data_notify.
  destruct (init_conn_allocs z need_notify w) as (cs & _ & -> & Hlen).
  assert (Hold : zone_meta_notify_to_map (this w) !! i = Some p
                 ∨ zone_data_notify_to_map (this w) !! i = Some p →
                 p ∈ alloc_conns (this w) ++ (Some <$> seq (length (heap w)) (length cs))).
  { intros H. apply elem_of_app. left. by apply (Hreg i). }
  destruct (skipped svc z) eqn:E; simpl; [done|].
  specialize (Hlen eq_refl).
  assert (Hnew : Some (length (heap w))
                 ∈ alloc_conns (this w) ++ (Some <$> seq (length (heap w)) (length cs))).
  { apply elem_of_app. right. apply list_elem_of_fmap. eexists. split; [done|].
    apply elem_of_seq. destruct (sip_conf z); lia. }
  intros [H|H]; repeat case_match; simplify_eq; auto.
Qed.

Lemma run_steps_notify_registered steps w :
  notify_registered w → notify_registered (run_steps svc user steps w).2.
Proof.
  revert w. induction steps as [|[z nn] steps IH]; intros w Hreg; [done|].
  rewrite run_steps_cons. by apply IH, init_conn_notify_registered.
Qed.

(** Owned handles of a directory grown from a fresh one are live. *)
Lemma run_steps_alloc_live steps h l p :
  p ∈ alloc_conns (this (run_steps svc user steps (World_new h l)).2) →
  is_Some (deref (heap (run_steps svc user steps (World_new h l)).2) p).
Proof.
  destruct (run_steps_allocs steps (World_new h l)) as (cs & -> & ->). simpl.
  intros (a & -> & Hin)%list_elem_of_fmap.
  apply elem_of_seq in Hin. unfold deref. simpl.
  rewrite lookup_app_r by lia. rewrite list_lookup_fmap.
  destruct (lookup_lt_is_Some_2 cs (a - length h)) as [c' ->]; [lia|]. by eexists.
Qed.

(** X16.  In a directory grown from a fresh one, every handle held in the
    metadata-notify or the data-notify table is an owned handle and points to
    a live connection: the tables hold no null and no dangling pointer. *)
Theorem notify_handles_live steps h l i p :
  zone_meta_notify_to_map (this (run_steps svc user steps (World_new h l)).2) !! i
    = Some p
  ∨ zone_data_notify_to_map (this (run_steps svc user steps (World_new h l)).2) !! i
    = Some p →
  p ∈ alloc_conns (this (run_steps svc user steps (World_new h l)).2)
  ∧ is_Some (deref (heap (run_steps svc user steps (World_new h l)).2) p).
Proof.
  intros H.
  assert (Hin : p ∈ alloc_conns (this (run_steps svc user steps (World_new h l)).2)).
  { eapply (run_steps_notify_registered steps (World_new h l)); [|exact H].
    intros j q. simpl. rewrite !lookup_empty. by intros [|]. }
  split; [done|]. by apply run_steps_alloc_live.
Qed.

Lemma init_conn_without_notify z w :
  zone_meta_notify_to_map (this (init_conn svc user z false w).2)
    = zone_meta_notify_to_map (this w)
  ∧ zone_data_notify_to_map (this (init_conn svc user z false w).2)
    = zone_data_notify_to_map (this w).
Proof.
  split; apply map_eq; intros i.
  - by rewrite init_conn_meta_notify, andb_false_r.
  - by rewrite init_conn_data_notify, andb_false_r.
Qed.

(** X5.  The loop of [init] over the foreign zones leaves both notify tables
    exactly as they are, whatever the zones and the state. *)
Theorem init_conns_foreign_keeps_notify_tables zs w :
  zone_meta_notify_to_map (this (init_conns svc user zs false w).2)
    = zone_meta_notify_to_map (this w)
  ∧ zone_data_notify_to_map (this (init_conns svc user zs false w).2)
    = zone_data_notify_to_map (this w).
Proof.
  revert w. induction zs as [|ziter zs IH]; intros w; [done|].
  simpl. unfold mbind, M_bind.
  destruct (init_conn_without_notify ziter.2 w) as [Hm Hd].
  destruct (init_conn svc user ziter.2 false w) as [[] w1]. simpl in Hm, Hd.
  destruct (IH w1) as [-> ->]. done.
Qed.

(** ** After [init], zone by zone *)

Lemma run_steps_notify_frame steps w i :
  (∀ z nn, (z, nn) ∈ steps → dp_id z ≠ i) →
  zone_meta_notify_to_map (this (run_steps svc user steps w).2) !! i
    = zone_meta_notify_to_map (this w) !! i
  ∧ zone_data_notify_to_map (this (run_steps svc user steps w).2) !! i
    = zone_data_notify_to_map (this w) !! i.
Proof.
  revert w. induction steps as [|[z nn] steps IH]; intros w Hne; [done|].
  rewrite run_steps_cons.
  destruct (IH (init_conn svc user z nn w).2) as [-> ->].
  { intros z' nn' H. apply (Hne z' nn'), elem_of_cons. by right. }
  rewrite init_conn_meta_notify, init_conn_data_notify.
  rewrite (bool_decide_eq_false_2 (dp_id z = i)); [by rewrite !andb_false_r|].
  apply (Hne z nn), elem_of_cons. by left.
Qed.

(** When no two steps are for the same zone id, what the three tables hold
    for a zone that is not skipped is what its own step wrote, and the cells
    that step allocated are still where they were. *)
Lemma run_steps_entry_full steps w z nn :
  NoDup ((λ step : RGWDataProvider * bool, dp_id step.1) <$> steps) →
  (z, nn) ∈ steps → skipped svc z = false →
  ∃ w1 ext,
    conns_map (this (run_steps svc user steps w).2) !! dp_id z
      = Some (entry_of z (length (heap w1)))
    ∧ zone_meta_notify_to_map (this (run_steps svc user steps w).2) !! dp_id z
      = (if nn then Some (Some (length (heap w1)))
         else zone_meta_notify_to_map (this w) !! dp_id z)
    ∧ zone_data_notify_to_map (this (run_steps svc user steps w).2) !! dp_id z
      = (if nn && bool_decide (dp_id z ∈ get_zone_data_notify_set svc)
         then Some (Some (length (heap w1)))
         else zone_data_notify_to_map (this w) !! dp_id z)
    ∧ heap (run_steps svc user steps w).2
      = heap (init_conn svc user z nn w1).2 ++ ext.
Proof.
  intros Hnd (steps1 & steps2 & ->)%list_elem_of_split Hsk.
  rewrite run_steps_app, run_steps_cons.
  rewrite fmap_app, fmap_cons in Hnd. simpl in Hnd.
  apply NoDup_app in Hnd as (_ & Hapart & Hnd).
  apply NoDup_cons in Hnd as [Hnotin _].
  set (w1 := (run_steps svc user steps1 w).2).
  assert (H2 : ∀ z' nn', (z', nn') ∈ steps2 → dp_id z' ≠ dp_id z).
  { intros z' nn' Hin Heq. apply Hnotin. rewrite <- Heq.
    apply list_elem_of_fmap. by exists (z', nn'). }
  assert (H1 : ∀ z' nn', (z', nn') ∈ steps1 → dp_id z' ≠ dp_id z).
  { intros z' nn' Hin Heq. apply (Hapart (dp_id z')).
    - apply list_elem_of_fmap. by exists (z', nn').
    - rewrite Heq. apply elem_of_cons. by left. }
  destruct (run_steps_allocs steps2 (init_conn svc user z nn w1).2) as (cs & Hh & _).
  exists w1, (Some <$> cs).
  rewrite run_steps_conns_map_frame by done.
  destruct (run_steps_notify_frame steps2 (init_conn svc user z nn w1).2 (dp_id z) H2)
    as [-> ->].
  destruct (run_steps_notify_frame steps1 w (dp_id z) H1) as [Hm Hd].
  fold w1 in Hm, Hd.
  rewrite init_conn_conns_map, init_conn_meta_notify, init_conn_data_notify.
  rewrite Hsk, Hm, Hd, bool_decide_eq_true_2 by done. simpl.
  rewrite !andb_true_r. done.
Qed.

(** X4.  After [init] on a fresh directory, the handle a member zone has in
    the metadata-notify table is the data handle of its pair, and so is its
    handle in the data-notify table when the data-notify set holds its id;
    otherwise the zone is not in the data-notify table.  The sync-index
    handle is never used for notification.  Zone ids are taken to be
    distinct across the zone group. *)
Theorem init_notify_handles_are_data_handles z h l c :
  distinct_zone_ids svc → z ∈ member_zones svc →
  zone_conns (dp_id z) (init svc user (World_new h l)).2 = Some c →
  zone_meta_notify_to_map (this (init svc user (World_new h l)).2) !! dp_id z
    = Some (data c)
  ∧ zone_data_notify_to_map (this (init svc user (World_new h l)).2) !! dp_id z
    = (if bool_decide (dp_id z ∈ get_zone_data_notify_set svc)
       then Some (data c) else None).
Proof.
  intros Hnd Hz Hc.
  assert (Hz' : z ∈ member_zones svc ++ foreign_zone_list svc).
  { apply elem_of_app. by left. }
  assert (Hsk : skipped svc z = false).
  { apply (init_zone_conns_is_Some z h l Hnd Hz'). by eexists. }
  unfold zone_conns in Hc. rewrite init_run_steps in *.
  destruct (run_steps_entry_full (init_steps svc) (World_new h l) z true)
    as (w1 & ext & Hconns & Hmeta & Hdata & _); [|by apply member_zone_step|done|].
  { rewrite init_steps_ids. exact Hnd. }
  rewrite Hconns in Hc. injection Hc as <-.
  rewrite Hmeta, Hdata. simpl. by rewrite lookup_empty.
Qed.

(** X9.  After [init] on a fresh directory, the data handle of the pair of a
    zone points to a connection to that zone id in the local zone group, with
    the API name of the zone's zone group when the topology service finds one:
    built from the zone's own endpoints and the system key when the zone has
    no data-access override, and else from the override's endpoint list (the
    list tested by [init_conn] when the override has none) and the key its
    credential reference resolves to, the system key failing that.  With a
    sync-index override the sync-index handle points to a connection built in
    the same way from that override; without, to the data connection.  Zone
    ids are taken to be distinct across the zone group. *)
Theorem init_pair_connections z h l c :
  distinct_zone_ids svc → z ∈ member_zones svc ++ foreign_zone_list svc →
  zone_conns (dp_id z) (init svc user (World_new h l)).2 = Some c →
  let mk (endpoints : list string) (key : RGWAccessKey) :=
    {| remote_id := dp_id z; conn_endpoints := endpoints; conn_key := key;
       self_zone_group := zg_id (get_zonegroup svc);
       conn_api_name := zg_api_name <$> find_zonegroup_by_zone svc (dp_id z) |} in
  let data_conn :=
    match data_access_conf z with
    | Some conf =>
        mk (default (def_endpoints_of z) (rc_endpoints conf)) (conn_key_for svc user conf)
    | None => mk (dp_endpoints z) (system_key svc)
    end in
  deref (heap (init svc user (World_new h l)).2) (data c) = Some data_conn
  ∧ deref (heap (init svc user (World_new h l)).2) (sip c)
    = Some (match sip_conf z with
            | Some sc =>
                mk (default (def_endpoints_of z) (rc_endpoints (rest_conf sc)))
                   (conn_key_for svc user (rest_conf sc))
            | None => data_conn
            end).
Proof.
  intros Hnd Hz Hc mk data_conn.
  assert (Hsk : skipped svc z = false).
  { apply (init_zone_conns_is_Some z h l Hnd Hz). by eexists. }
  unfold zone_conns in Hc. rewrite init_run_steps in *.
  destruct (zone_step z Hz) as [nn Hstep].
  destruct (run_steps_entry_full (init_steps svc) (World_new h l) z nn)
    as (w1 & ext & Hconns & _ & _ & Hheap); [|done..|].
  { rewrite init_steps_ids. exact Hnd. }
  rewrite Hconns in Hc. injection Hc as <-.
  destruct (init_conn_heap_lookups z nn w1 Hsk) as [Hh _].
  rewrite Hheap, Hh, <- app_assoc, <- app_comm_cons.
  unfold entry_of, deref. simpl. split.
  - by rewrite list_lookup_middle.
  - destruct (sip_conf z) as [sc|]; simpl.
    + rewrite (cons_middle _ (heap w1)), app_assoc.
      rewrite list_lookup_middle; [done|]. rewrite length_app. simpl. lia.
    + by rewrite list_lookup_middle.
Qed.

(** ** [init] run again *)

(** Where the pair of a zone id comes from after a run: from a step of the
    run, and then its handles are addresses allocated during the run, or from
    before, and then no step of the run was for that id and not skipped. *)
Lemma run_steps_pair_origin steps w i c :
  conns_map (this (run_steps svc user steps w).2) !! i = Some c →
  (∃ a b, data c = Some a ∧ sip c = Some b
          ∧ length (heap w) ≤ a ∧ length (heap w) ≤ b)
  ∨ (conns_map (this w) !! i = Some c
     ∧ ∀ z nn, (z, nn) ∈ steps → dp_id z = i → skipped svc z = true).
Proof.
  revert w. induction steps as [|[z nn] steps IH]; intros w.
  - intros H. right. split; [done|]. by intros z nn ?%elem_of_nil.
  - rewrite run_steps_cons. intros H.
    destruct (init_conn_allocs z nn w) as (cs & Hh & _ & _).
    assert (Hle : length (heap w) ≤ length (heap (init_conn svc user z nn w).2)).
    { rewrite Hh, length_app. lia. }
    destruct (IH _ H) as [(a & b & Ha & Hb & Hla & Hlb)|[Hc Hno]].
    + left. exists a, b. split_and!; [done..|lia|lia].
    + rewrite init_conn_conns_map in Hc.
      destruct (negb (skipped svc z) && bool_decide (dp_id z = i)) eqn:E.
      * injection Hc as <-. left. unfold entry_of. simpl.
        destruct (sip_conf z); eexists _, _; split_and!; try done; lia.
      * right. split; [done|]. intros z' nn' [[= -> ->]|Hin]%elem_of_cons Hid.
        -- rewrite (bool_decide_eq_true_2 _ Hid), andb_true_r in E.
           by apply negb_false_iff in E.
        -- by apply (Hno z' nn').
Qed.

(** X7.  Running [init] a second time keeps the keys of the directory and
    replaces every pair: both handles of every pair then point to connections
    allocated by the second run, and the connections of the first run, no
    longer in any pair, stay owned -- the second run owns twice as many
    handles as the first. *)
Theorem init_twice_replaces_pairs h l :
  let w1 := (init svc user (World_new h l)).2 in
  let w2 := (init svc user w1).2 in
  (∀ i, is_Some (zone_conns i w2) ↔ is_Some (zone_conns i w1))
  ∧ (∀ i c, zone_conns i w2 = Some c →
       ∃ a b, data c = Some a ∧ sip c = Some b
              ∧ length (heap w1) ≤ a ∧ length (heap w1) ≤ b)
  ∧ alloc_conns (this w1) `prefix_of` alloc_conns (this w2)
  ∧ length (alloc_conns (this w2)) = 2 * length (alloc_conns (this w1)).
Proof.
  intros w1 w2. unfold zone_conns. subst w2 w1. rewrite !init_run_steps.
  set (w1 := (run_steps svc user (init_steps svc) (World_new h l)).2).
  assert (Hkeys : ∀ i, is_Some (conns_map (this w1) !! i)
                       ↔ ∃ z nn, (z, nn) ∈ init_steps svc
                                 ∧ skipped svc z = false ∧ dp_id z = i).
  { intros i. unfold w1. rewrite run_steps_conns_map. simpl. rewrite lookup_empty.
    split; [by intros [[? [=]]|]|by right]. }
  split_and!.
  - intros i. rewrite run_steps_conns_map, <- Hkeys. tauto.
  - intros i c Hc.
    destruct (run_steps_pair_origin _ _ _ _ Hc) as [|[Hc1 Hno]]; [done|].
    destruct (proj1 (Hkeys i)) as (z & nn & Hin & Hsk & Hid); [by eexists|].
    rewrite (Hno z nn Hin Hid) in Hsk. done.
  - destruct (run_steps_allocs (init_steps svc) w1) as (cs & _ & ->). by eexists.
  - destruct (run_steps_count (init_steps svc) w1) as [_ ->].
    destruct (run_steps_count (init_steps svc) (World_new h l)) as [_ H1].
    fold w1 in H1. simpl in H1. lia.
Qed.

End Properties.

(** * The code on the small zone group *)

(** C6.  [create_conn] takes the endpoint list of the override whenever the
    override has one, empty or not: zone [E] has the endpoint [e5] and a
    data-access override with an empty endpoint list, and the connection
    [init_conn] builds for it has no endpoint. *)
Theorem create_conn_keeps_empty_override_list :
  def_endpoints_of Demo.zone_E = ["e5"]
  ∧ heap (create_conn Demo.svc Demo.user "e" "E" ["e5"] Demo.conf_E
            (Some "default") Demo.world0).2
    = [Some {| remote_id := "E"; conn_endpoints := [];
               conn_key := Demo.local_key; self_zone_group := "zg";
               conn_api_name := Some "default" |}]
  ∧ heap (init_conn Demo.svc Demo.user Demo.zone_E true Demo.world0).2
    = [Some {| remote_id := "E"; conn_endpoints := [];
               conn_key := Demo.local_key; self_zone_group := "zg";
               conn_api_name := Some "default" |}].
Proof. split_and!; reflexivity. Qed.

(** The six zones of the small zone group have six ids. *)
Lemma demo_distinct_zone_ids : distinct_zone_ids Demo.svc.
Proof. unfold distinct_zone_ids. simpl. apply (bool_decide_unpack _). by vm_compute. Defined.

(** [F] is none of [A] to [E]. *)
Lemma demo_foreign_ids_apart : foreign_ids_apart Demo.svc.
Proof.
  intros z f Hz Hf. apply list_elem_of_In in Hz, Hf. simpl in Hz, Hf.
  destruct Hf as [<-|[]]. simpl.
  destruct Hz as [<-|[<-|[<-|[<-|[<-|[]]]]]]; discriminate.
Defined.

(** The override of [E] names an access-key id the store does not know. *)
Lemma create_conn_falls_back_to_system_key_witness :
  resolution_fails Demo.user Demo.conf_E
  ∧ ∃ w',
      create_conn Demo.svc Demo.user "e" "E" ["e5"] Demo.conf_E (Some "default")
        Demo.world0 = (Some 0, w')
      ∧ heap w' = [Some {| remote_id := "E"; conn_endpoints := [];
                           conn_key := Demo.local_key; self_zone_group := "zg";
                           conn_api_name := Some "default" |}]
      ∧ this w' = RGWRemoteCtl_new.
Proof.
  assert (H : resolution_fails Demo.user Demo.conf_E).
  { apply (lookup_by_access_key_error Demo.user Demo.conf_E "AK");
      [reflexivity|reflexivity|simpl; lia]. }
  split; [exact H|].
  exact (proj2 (create_conn_falls_back_to_system_key Demo.svc Demo.user
                  "e" "E" ["e5"] Demo.conf_E (Some "default") Demo.world0 H)).
Defined.

(** [A] is the local zone. *)
Lemma init_conn_local_zone_noop_witness :
  init_conn Demo.svc Demo.user Demo.zone_A true Demo.world0 = (tt, Demo.world0).
Proof.
  apply (init_conn_local_zone_noop Demo.svc Demo.user Demo.zone_A true Demo.world0).
  reflexivity.
Defined.

(** [D] has no endpoint. *)
Lemma init_skips_zone_without_endpoints_witness :
  zone_conns "D" (init Demo.svc Demo.user Demo.world0).2 = None
  ∧ zone_conns_by_name Demo.svc "d" (init Demo.svc Demo.user Demo.world0).2 = None.
Proof.
  destruct (init_skips_zone_without_endpoints Demo.svc Demo.user Demo.zone_D [] [])
    as (_ & Hid & Hname).
  - exact demo_distinct_zone_ids.
  - apply list_elem_of_In. simpl. tauto.
  - reflexivity.
  - split; [exact Hid|]. apply Hname. reflexivity.
Defined.

(** [C] has a sync-index override. *)
Lemma init_sip_aliases_data_unless_overridden_witness :
  zone_conns "C" (init Demo.svc Demo.user Demo.world0).2
    = Some {| data := Some 1; sip := Some 2 |}
  ∧ Some 2 ≠ Some 1.
Proof.
  assert (H : zone_conns (dp_id Demo.zone_C) (init Demo.svc Demo.user (World_new [] [])).2
              = Some {| data := Some 1; sip := Some 2 |}) by (by vm_compute).
  split; [exact H|].
  refine (proj2 (proj2 (init_sip_aliases_data_unless_overridden Demo.svc Demo.user
                          Demo.zone_C [] [] _ demo_distinct_zone_ids _ H))).
  apply list_elem_of_In. simpl. tauto.
Defined.

(** [B] is a member zone, [F] a foreign one. *)
Lemma init_notify_tables_witness :
  is_Some (zone_meta_notify_to_map (this (init Demo.svc Demo.user Demo.world0).2)
             !! "B")
  ∧ zone_meta_notify_to_map (this (init Demo.svc Demo.user Demo.world0).2) !! "F"
      = None.
Proof.
  destruct (init_notify_tables Demo.svc Demo.user [] [] demo_foreign_ids_apart)
    as [Hmember Hforeign].
  split.
  - destruct (Hmember Demo.zone_B) as [Hmeta _]; [| |exact Hmeta].
    + apply list_elem_of_In. simpl. tauto.
    + vm_compute. by eexists.
  - apply (Hforeign Demo.zone_F). apply list_elem_of_In. simpl. tauto.
Defined.

(** The redirect zone is [B], reachable at [e1]. *)
Lemma get_redirect_zone_endpoint_absent_cases_witness :
  get_redirect_zone_endpoint Demo.svc Demo.get_url ""
    (run_steps Demo.svc Demo.user (init_steps Demo.svc) Demo.world0).2
  = Some (true, "e1")
  ∧ ∃ found e,
      get_redirect_zone_endpoint Demo.svc Demo.get_url ""
        (run_steps Demo.svc Demo.user (init_steps Demo.svc) Demo.world0).2
      = Some (found, e).
Proof.
  split; [reflexivity|].
  destruct (get_redirect_zone_endpoint_absent_cases Demo.svc Demo.user Demo.get_url
              (init_steps Demo.svc) [] [] "") as (found & e & H & _).
  exists found, e. exact H.
Defined.

(** ** The further properties on the small zone group *)

(** The store does not know the access-key id [AK]: the id is written, the
    secret is not. *)
Lemma get_access_key_result_on_failure_witness :
  ak_key (get_access_key Demo.user "e" None (Some "AK") None RGWAccessKey_default
            Demo.world0).1.2 = ""
  ∧ ak_id (get_access_key Demo.user "e" None (Some "AK") None RGWAccessKey_default
             Demo.world0).1.2 = "AK".
Proof.
  apply (get_access_key_result_on_failure Demo.user "e" None (Some "AK") None
           RGWAccessKey_default Demo.world0).
  reflexivity.
Defined.

(** A connection made by hand after [init] survives the teardown of the five
    connections of the directory. *)
Lemma create_conn_result_not_owned_witness :
  ∃ c, destructor (create_conn_explicit Demo.svc "X" ["x"] Demo.sync_key None
                     (init Demo.svc Demo.user Demo.world0).2).2
       = Some ([None; None; None; None; None] ++ [Some c]).
Proof.
  apply (create_conn_result_not_owned Demo.svc Demo.user "e" "E" ["e5"] Demo.conf_E
           "X" ["x"] Demo.sync_key None (init Demo.svc Demo.user Demo.world0).2
           [None; None; None; None; None]).
  reflexivity.
Defined.

(** The name [a] is that of the local zone. *)
Lemma zone_conns_by_name_local_zone_witness :
  zone_conns_by_name Demo.svc "a" (init Demo.svc Demo.user Demo.world0).2 = None.
Proof.
  rewrite init_run_steps.
  apply (zone_conns_by_name_local_zone Demo.svc Demo.user "a" (init_steps Demo.svc)
           [] []).
  reflexivity.
Defined.

(** [A] redirects to itself. *)
Lemma get_redirect_zone_endpoint_self_witness :
  get_redirect_zone_endpoint DemoSelf.svc Demo.get_url "none"
    (run_steps DemoSelf.svc Demo.user (init_steps DemoSelf.svc) Demo.world0).2
  = Some (false, "none").
Proof.
  apply (get_redirect_zone_endpoint_self DemoSelf.svc Demo.user Demo.get_url
           (init_steps DemoSelf.svc) [] [] "none").
  reflexivity.
Defined.

(** The metadata-notify handle of [B]. *)
Lemma notify_handles_live_witness :
  Some 0 ∈ alloc_conns (this (run_steps Demo.svc Demo.user (init_steps Demo.svc)
                                Demo.world0).2)
  ∧ is_Some (deref (heap (run_steps Demo.svc Demo.user (init_steps Demo.svc)
                            Demo.world0).2) (Some 0)).
Proof.
  apply (notify_handles_live Demo.svc Demo.user (init_steps Demo.svc) [] [] "B"
           (Some 0)).
  left. reflexivity.
Defined.

(** [B] is notified of metadata and of data through its data handle. *)
Lemma init_notify_handles_are_data_handles_witness :
  zone_meta_notify_to_map (this (init Demo.svc Demo.user Demo.world0).2) !! "B"
    = Some (Some 0)
  ∧ zone_data_notify_to_map (this (init Demo.svc Demo.user Demo.world0).2) !! "B"
    = Some (Some 0).
Proof.
  refine (init_notify_handles_are_data_handles Demo.svc Demo.user Demo.zone_B [] []
            {| data := Some 0; sip := Some 0 |} demo_distinct_zone_ids _ _).
  - apply list_elem_of_In. simpl. tauto.
  - reflexivity.
Defined.

(** The sync-index connection of [C] goes to [e3] with the key of the sync
    user; its data connection goes to [e2] with the system key. *)
Lemma init_pair_connections_witness :
  deref (heap (init Demo.svc Demo.user Demo.world0).2) (Some 1)
    = Some {| remote_id := "C"; conn_endpoints := ["e2"];
              conn_key := Demo.local_key; self_zone_group := "zg";
              conn_api_name := Some "default" |}
  ∧ deref (heap (init Demo.svc Demo.user Demo.world0).2) (Some 2)
    = Some {| remote_id := "C"; conn_endpoints := ["e3"];
              conn_key := Demo.sync_key; self_zone_group := "zg";
              conn_api_name := Some "default" |}.
Proof.
  refine (init_pair_connections Demo.svc Demo.user Demo.zone_C [] []
            {| data := Some 1; sip := Some 2 |} demo_distinct_zone_ids _ _).
  - apply list_elem_of_In. simpl. tauto.
  - reflexivity.
Defined.
